(** * xweb: request routing and action dispatch (route.go)

    A shallow embedding of [route.go]: the route table ([Routes]), its
    registration functions ([addStatic], [addAction]), the router
    ([Routes.handle]) and the action life cycle ([actionHandler.DoCr]),
    followed by the properties of the routing and dispatch design.

    Go strings are byte strings: they are [string] here, [len] is
    [String.length].  Go maps are [gmap]s, slices are lists.  The response
    writer, the logger and the reflective calls into controller code are
    threaded explicitly through a small state-and-panic monad.  What
    route.go takes from elsewhere (the regexp library, [path.Join], the
    controllers, helpers of the repository defined in other files) is a
    parameter of the development. *)

From Stdlib Require Import String Ascii List Bool Arith Lia DecimalString.
From stdpp Require Import base option list gmap strings.
Import ListNotations.

Local Open Scope string_scope.
Local Open Scope list_scope.

(** ** Go standard library: strings, strconv *)

Module strings.

(** [strings.IndexByte(chars, c) >= 0] *)
Fixpoint hasByte (chars : string) (c : ascii) : bool :=
  match chars with
  | EmptyString => false
  | String d chars' => if Ascii.eqb c d then true else hasByte chars' c
  end.

(** [strings.ContainsAny(s, chars)]: some byte of [s] is in [chars]. *)
Fixpoint ContainsAny (s chars : string) : bool :=
  match s with
  | EmptyString => false
  | String c s' => if hasByte chars c then true else ContainsAny s' chars
  end.

(** [strings.HasPrefix(s, p)] *)
Fixpoint HasPrefix (s p : string) : bool :=
  match p, s with
  | EmptyString, _ => true
  | String _ _, EmptyString => false
  | String a p', String b s' => if Ascii.eqb a b then HasPrefix s' p' else false
  end.

(** [strings.Contains(s, substr)] *)
Fixpoint Contains (s substr : string) : bool :=
  if HasPrefix s substr then true
  else match s with
       | EmptyString => false
       | String _ s' => Contains s' substr
       end.

End strings.

Module strconv.
(** [strconv.Itoa] on a length (never negative). *)
Definition Itoa (n : nat) : string := NilZero.string_of_uint (Nat.to_uint n).
End strconv.

(** ** net/http: headers, requests, the response writer *)

(** [http.Header] and [url.Values] are both [map[string][]string]. *)
Abbreviation Values := (gmap string (list string)).

Definition Header_Get (h : Values) (key : string) : string :=
  match h !! key with
  | Some (v :: _) => v
  | _ => ""
  end.

Definition Header_Set (h : Values) (key value : string) : Values :=
  <[key := [value]]> h.

Record Cookie := mkCookie { Name : string; Value : string }.

(** The request.  [Form] is what [ParseForm]/[ParseMultipartForm] fill in;
    the parsers belong to net/http, so the outcome of each is carried by
    the request as [urlencodedForm] and [multipartForm] (the latter
    depends on the upload limit it is given). *)
Record Request := mkRequest {
  Method : string;
  URLPath : string;
  Header : Values;
  Cookies : list Cookie;
  Form : Values;
  urlencodedForm : Values;
  multipartForm : Z -> Values
}.

Definition ParseForm (req : Request) : Request :=
  {| Method := Method req; URLPath := URLPath req; Header := Header req;
     Cookies := Cookies req; Form := urlencodedForm req;
     urlencodedForm := urlencodedForm req; multipartForm := multipartForm req |}.

Definition ParseMultipartForm (req : Request) (maxMemory : Z) : Request :=
  {| Method := Method req; URLPath := URLPath req; Header := Header req;
     Cookies := Cookies req; Form := multipartForm req maxMemory;
     urlencodedForm := urlencodedForm req; multipartForm := multipartForm req |}.

(** [req.Cookie(name)]: the first cookie of that name, [None] for
    [http.ErrNoCookie]. *)
Fixpoint Request_Cookie (cs : list Cookie) (name : string) : option Cookie :=
  match cs with
  | [] => None
  | c :: cs' => if String.eqb (Name c) name then Some c else Request_Cookie cs' name
  end.

(** The response writer, as a recorder: the header map, the status once
    it is committed, the body written so far, and the error the sink gives
    to [Write] when the connection is broken. *)
Record ResponseWriter := mkResponseWriter {
  wheader : Values;
  wstatus : option Z;
  wbody : string;
  wbroken : option string
}.

Definition w_SetHeader (key value : string) (w : ResponseWriter) : ResponseWriter :=
  {| wheader := Header_Set (wheader w) key value; wstatus := wstatus w;
     wbody := wbody w; wbroken := wbroken w |}.

(** [w.WriteHeader(code)]: the first status wins. *)
Definition w_WriteHeader (code : Z) (w : ResponseWriter) : ResponseWriter :=
  {| wheader := wheader w;
     wstatus := match wstatus w with Some c => Some c | None => Some code end;
     wbody := wbody w; wbroken := wbroken w |}.

(** [w.Write(b)]: commits status 200 when none was sent, appends the
    bytes; a broken sink takes nothing and returns its error. *)
Definition w_Write (b : string) (w : ResponseWriter) : ResponseWriter * option string :=
  match wbroken w with
  | Some e => (w, Some e)
  | None =>
      ({| wheader := wheader w;
          wstatus := match wstatus w with Some c => Some c | None => Some 200%Z end;
          wbody := wbody w ++ b; wbroken := None |}, None)
  end.

(** A response nobody has touched: no status sent, no body, a live sink. *)
Definition pristine (w : ResponseWriter) : Prop :=
  wstatus w = None /\ wbody w = "" /\ wbroken w = None.

(** ** regexp: the interface of the compiled-pattern library

    [regexp.Compile], [Regexp.MatchString] and
    [Regexp.FindStringSubmatch] belong to Go's standard library.  The
    router is verified against their contract: [MatchString] reports a
    match exactly when [FindStringSubmatch] returns a non-nil slice, and
    element 0 of that slice is the text of the match, a slice
    [s[i:i+n]] of the subject. *)
Class RegexpLib := {
  Regexp : Type;
  Compile : string -> Regexp + string;
  MatchString : Regexp -> string -> bool;
  FindStringSubmatch : Regexp -> string -> list string;
  MatchString_Find : forall re s,
    MatchString re s = true <-> FindStringSubmatch re s <> [];
  Find_text : forall re s m0 ms,
    FindStringSubmatch re s = m0 :: ms -> exists i n, m0 = substring i n s
}.

(** ** Controller code reached through reflection *)

(** What a [reflect.Value] returned by a controller method is, as far as
    [DoCr] looks at it: its [Kind] and the dynamic check against [error].
    [VRefused v] stands for the values on which lines 171-173 panic, with
    [v]: a byte slice of a named type, which has the kind and the element
    kind of line 171 and fails the assertion to a slice of bytes of line
    172, and a value [Interface] panics on, such as the zero
    [reflect.Value] that a hook can put in the array. *)
Inductive rvalue :=
| VString (s : string)              (* Kind() == reflect.String *)
| VBytes (b : string)               (* a slice of bytes *)
| VError (msg : string)             (* a non-nil value implementing error *)
| VOther                            (* anything else, a nil error included *)
| VRefused (v : string).            (* a value lines 171-173 panic on *)

(** An argument of a reflective call: a string, or the [reflect.ValueOf]
    of the slice of values an invocation returned (the After hook's third
    one), which holds [vs] when the call is made. *)
Inductive arg :=
| AString (s : string)
| AValues (vs : list rvalue).

(** What controller code can touch besides its own instance: the
    response writer (shared by reference through [Action.ResponseWriter]),
    the application logger, and the array of the values the action
    returned: [reflect.ValueOf(ret)] (line 157) copies the slice header
    and not the array, so the After hook and [DoCr] hold the same
    elements.  A hook can overwrite them; it cannot change the length of
    the slice [DoCr] holds, so a hook leaves [eret] as long as it found
    it. *)
Record Env := mkEnv {
  ew : ResponseWriter;
  elogs : list string;
  eret : list rvalue
}.

(** [logger.Println(v)] *)
Definition Println (line : string) (e : Env) : Env :=
  {| ew := ew e; elogs := elogs e ++ [line]; eret := eret e |}.

Record AppConfig := mkAppConfig {
  StaticDir : string;
  MaxUploadSize : Z;
  CheckXrsf : bool
}.

(** The part of [App] that route.go reads. *)
Record App := mkApp {
  BasePath : string;
  Config : AppConfig;
  VarMaps : gmap string rvalue
}.

(** The [Action] value built for each request (line 115); its
    [ResponseWriter] field is the writer of the environment. *)
Record Action := mkAction {
  ARequest : Request;
  AApp : App;
  AT : gmap string rvalue;
  Af : gmap string rvalue
}.

Section Controllers.

(** The state of a controller instance. *)
Context {U : Type}.

(** The outcome of running a controller method: it returns values or
    panics, and in both cases has had its way with the instance and
    with the environment. *)
Inductive called :=
| Returns (rets : list rvalue) (vc : U) (e : Env)
| Panics (v : string) (vc : U) (e : Env).

Definition rmethod := list arg -> U -> Env -> called.

(** A [reflect.Type] of a controller struct: its name, its zero value,
    the setters of the fields [FieldByName] finds and the methods
    [MethodByName] finds on a pointer to it. *)
Record rtype := mkRtype {
  TypeString : string;
  New : U;
  FieldAction : option (Action -> U -> U);
  FieldC : option (U -> U);
  MethodByName : string -> option rmethod
}.

End Controllers.

Arguments called : clear implicits.
Arguments rmethod : clear implicits.
Arguments rtype : clear implicits.

(** ** The state of one request and the monad the handlers run in *)

(** The reflective calls made so far, in order. *)
Inductive Call :=
| CallNew (t : string)                            (* reflect.New(ctype) *)
| CallHook (name : string) (args : list arg)      (* MethodByName(name).Call(args) *)
| CallSafely (name : string) (args : list arg).   (* safelyCall(vc, name, args) *)

Record St := mkSt {
  env : Env;
  calls : list Call
}.

(** A computation either completes or unwinds with a panic. *)
Inductive result (A : Type) :=
| Done (a : A) (s : St)
| Panic (v : string) (s : St).
Arguments Done {A} a s.
Arguments Panic {A} v s.

Definition M (A : Type) : Type := St -> result A.

Definition ret {A} (a : A) : M A := fun s => Done a s.

Definition bind {A B} (m : M A) (k : A -> M B) : M B :=
  fun s => match m s with
           | Done a s' => k a s'
           | Panic v s' => Panic v s'
           end.

Definition panic {A} (v : string) : M A := fun s => Panic v s.

Declare Scope go_scope.
Delimit Scope go_scope with go.
Notation "x <- c1 ;; c2" := (bind c1 (fun x => c2))
  (at level 100, c1 at next level, right associativity) : go_scope.
Notation "c1 ;; c2" := (bind c1 (fun _ => c2))
  (at level 100, right associativity) : go_scope.

(** Acting on the environment. *)
Definition onEnv (g : Env -> Env) : M unit :=
  fun s => Done tt {| env := g (env s); calls := calls s |}.

Definition onW (g : ResponseWriter -> ResponseWriter) : M unit :=
  onEnv (fun e => {| ew := g (ew e); elogs := elogs e; eret := eret e |}).

Definition record (c : Call) : M unit :=
  fun s => Done tt {| env := env s; calls := calls s ++ [c] |}.

(** [w.Header().Set(key, value)] *)
Definition SetHeader (key value : string) : M unit := onW (w_SetHeader key value).

(** [w.WriteHeader(code)] *)
Definition WriteHeader (code : Z) : M unit := onW (w_WriteHeader code).

(** [w.Write(b)], giving the error back. *)
Definition Write_ (b : string) : M (option string) :=
  fun s => let '(w', err) := w_Write b (ew (env s)) in
           Done err {| env := {| ew := w'; elogs := elogs (env s); eret := eret (env s) |};
                       calls := calls s |}.

(** [logger.Println(line)] *)
Definition Log (line : string) : M unit := onEnv (Println line).

(** [ret, err := ...] (line 146): from here on [ret] is an array that
    [DoCr] holds and can hand out. *)
Definition hold (rets : list rvalue) : M unit :=
  onEnv (fun e => {| ew := ew e; elogs := elogs e; eret := rets |}).

(** [ret], read where [DoCr] uses it (lines 162-166). *)
Definition held : M (list rvalue) := fun s => Done (eret (env s)) s.

(** Modelled from the spec: [Action.Abort] is not in route.go; "abort the
    request with HTTP 500 and a fixed body" sends the status and writes the
    body to the response writer. *)
Definition Abort (status : Z) (body : string) : M unit :=
  (WriteHeader status ;; _ <- Write_ body ;; ret tt)%go.

(** Modelled from the spec: [Action.SetHeader] is not in route.go; "set
    Content-Length to the byte length of the rendered body" sets the
    header on the response writer. *)
Definition Action_SetHeader (key value : string) : M unit := SetHeader key value.

(** Modelled from the spec: [Action.GetLogger] is not in route.go; "log
    the error" prints a line on the application's logger, the one
    [a.Logger] is. *)
Definition GetLogger_Println (line : string) : M unit := Log line.

(** ** route.go *)

(** Pieces of the repository and of Go's library that route.go uses but
    does not define: the controller instances reflection builds (their
    state is [U]), the name of the CSRF cookie and form field, the
    form-to-struct binding pass, the static file server (out of the
    scope of the specification) and [path.Join]. *)
Class Externals := {
  U : Type;
  XSRF_TAG : string;
  StructMap : App -> U -> Request -> U;
  ServeStatic : App -> Request -> M unit;
  path_Join : string -> string -> string
}.

Section Router.

Context {L : RegexpLib} {X : Externals}.

(** type staticHandler (line 19) *)
Record staticHandler := mkStaticHandler {
  sh_app : App
}.

(** type actionHandler (line 62); [cr] is a pointer, nil until
    [addAction] compiles a pattern into it. *)
Record actionHandler := mkActionHandler {
  ah_app : App;
  ah_methods : gmap string bool;
  ah_cr : option Regexp;
  ah_ctype : rtype U;
  ah_handler : string
}.

(** type handler (line 15): the two implementations of the interface. *)
Inductive handler :=
| HStatic (h : staticHandler)
| HAction (h : actionHandler).

(** type Routes (line 192) *)
Record Routes := mkRoutes {
  r_app : App;
  mapRoutes : gmap string handler;
  rgRoutes : list actionHandler;
  defaultIndex : list string
}.

(** func NewRoutes (line 199) *)
Definition NewRoutes (app : App) (defaultHome : list string) : Routes :=
  {| r_app := app; mapRoutes := ∅; rgRoutes := []; defaultIndex := defaultHome |}.

(** func addStatic (line 205) *)
Definition addStatic (r : Routes) (s : string) (h : handler) : Routes * option string :=
  ({| r_app := r_app r; mapRoutes := <[s := h]> (mapRoutes r);
      rgRoutes := rgRoutes r; defaultIndex := defaultIndex r |}, None).

(** func NewActionHandler (line 210) *)
Definition NewActionHandler (app : App) (ctype : rtype U) (name : string) : actionHandler :=
  {| ah_app := app; ah_methods := ∅; ah_cr := None; ah_ctype := ctype; ah_handler := name |}.

(** func addAction (line 216): the route table afterwards and the error
    returned. *)
Definition addAction (r : Routes) (s : string) (methods : gmap string bool)
    (ctype : rtype U) (actionName : string) : Routes * option string :=
  let h := {| ah_app := r_app r; ah_methods := methods; ah_cr := None;
              ah_ctype := ctype; ah_handler := actionName |} in
  if negb (strings.ContainsAny s "*?") then
    ({| r_app := r_app r; mapRoutes := <[s := HAction h]> (mapRoutes r);
        rgRoutes := rgRoutes r; defaultIndex := defaultIndex r |}, None)
  else
    match Compile s with
    | inr err => (r, Some err)
    | inl cr =>
        let h := {| ah_app := ah_app h; ah_methods := ah_methods h; ah_cr := Some cr;
                    ah_ctype := ah_ctype h; ah_handler := ah_handler h |} in
        ({| r_app := r_app r; mapRoutes := mapRoutes r;
            rgRoutes := rgRoutes r ++ [h]; defaultIndex := defaultIndex r |}, None)
    end.

(** *** The action life cycle *)

(** [initM := vc.MethodByName(name); if initM.IsValid() { initM.Call(args) }]
    (lines 131-135, 141-144, 155-160): the hook runs unguarded, its
    return values are dropped. *)
Definition callIfValid (t : rtype U) (vc : U) (name : string) (args : list arg) : M U :=
  match MethodByName t name with
  | None => ret vc
  | Some m =>
      fun s =>
        let s' e := {| env := e; calls := calls s ++ [CallHook name args] |} in
        match m args vc (env s) with
        | Returns _ vc' e' => Done vc' (s' e')
        | Panics v vc' e' => Panic v (s' e')
        end
  end.

(** Modelled from the spec: [App.safelyCall] is not in route.go; "any
    runtime fault during the call is caught and converted into a generic
    server error".  The method is looked up by name and called; a panic
    of the call (a missing method makes [Call] panic) comes back as the
    error, the values it returned otherwise. *)
Definition safelyCall (t : rtype U) (vc : U) (name : string) (args : list arg)
    : M (U * list rvalue * option string) :=
  fun s =>
    let s' e := {| env := e; calls := calls s ++ [CallSafely name args] |} in
    match MethodByName t name with
    | None => Done (vc, [], Some "reflect: call of reflect.Value.Call on zero Value") (s' (env s))
    | Some m =>
        match m args vc (env s) with
        | Returns rets vc' e' => Done (vc', rets, None) (s' e')
        | Panics v vc' e' => Done (vc', [], Some v) (s' e')
        end
    end.

(** Lines 98-102: [formVal], the first value of the form field of the
    cookie's name, empty when there is none. *)
Definition xsrf_formVal (req : Request) : string :=
  let formVals := default [] (Form req !! XSRF_TAG) in
  match formVals with v :: _ => v | [] => "" end.

(** Lines 97 and 103: the cookie is looked up, and
    [err != nil || res.Value == "" || res.Value != formVal]. *)
Definition xsrf_mismatch (req : Request) : bool :=
  let res := Request_Cookie (Cookies req) XSRF_TAG in
  let formVal := xsrf_formVal req in
  match res with
  | None => true
  | Some c => String.eqb (Value c) "" || negb (String.eqb (Value c) formVal)
  end.

(** Lines 79-85: the form is parsed, one way or the other. *)
Definition parsed (a : App) (req : Request) : Request :=
  let ct := Header_Get (Header req) "Content-Type" in
  if strings.Contains ct "multipart/form-data"
  then ParseMultipartForm req (MaxUploadSize (Config a))
  else ParseForm req.

(** Lines 110-146: the instance is built and bound, Init and Before
    run, the action is called under guard. *)
Definition DoCr_invoke (h : actionHandler) (req : Request) (match_ : list string)
    : M (U * list rvalue * option string) :=
  let a := ah_app h in
  let args := map AString match_ in
  (record (CallNew (TypeString (ah_ctype h))) ;;
   let vc := New (ah_ctype h) in
   let c := {| ARequest := req; AApp := a; AT := VarMaps a; Af := ∅ |} in
   let vc := match FieldAction (ah_ctype h) with Some set => set c vc | None => vc end in
   let vc := match FieldC (ah_ctype h) with Some set => set vc | None => vc end in
   let vc := StructMap a vc req in
   vc <- callIfValid (ah_ctype h) vc "Init" [] ;;
   let structName := AString (TypeString (ah_ctype h)) in
   let actionName := AString (ah_handler h) in
   vc <- callIfValid (ah_ctype h) vc "Before" [structName; actionName] ;;
   safelyCall (ah_ctype h) vc (ah_handler h) args)%go.

(** Lines 147-184: what is done with the outcome of the call.  The After
    hook is handed [ret] itself, and [ret[0]] is read once the hook has
    returned: what is rendered is the first value as the hook left it.
    [Println] puts a space between its two operands (line 182). *)
Definition DoCr_finish (h : actionHandler) (vc : U) (rets : list rvalue)
    (err : option string) : M unit :=
  match err with
  | Some e => (GetLogger_Println e ;; Abort 500 "Server Error")%go
  | None =>
      let structName := AString (TypeString (ah_ctype h)) in
      let actionName := AString (ah_handler h) in
      (hold rets ;;
       _ <- callIfValid (ah_ctype h) vc "After" [structName; actionName; AValues rets] ;;
       ret_ <- held ;;
       match ret_ with
       | [] => ret tt
       | sval :: _ =>
           let render content :=
             (Action_SetHeader "Content-Length" (strconv.Itoa (String.length content)) ;;
              werr <- Write_ content ;;
              match werr with
              | Some e => Log ("Error during write:  " ++ e)
              | None => ret tt
              end)%go in
           match sval with
           | VString str => render str
           | VBytes b => render b
           | VError e => (GetLogger_Println e ;; Abort 500 "Server Error")%go
           | VOther => render ""
           | VRefused v => panic v
           end
       end)%go
  end.

(** Lines 96 and 103: the conditions under which the request is refused. *)
Definition xsrf_rejected (a : App) (req : Request) : bool :=
  CheckXrsf (Config a) && String.eqb (Method req) "POST" && xsrf_mismatch req.

(** func (h *actionHandler) DoCr (line 74) *)
Definition DoCr (h : actionHandler) (req : Request) (match_ : list string) : M unit :=
  let a := ah_app h in
  let req := parsed a req in
  (SetHeader "Content-Type" "text/html; charset=utf-8" ;;
   if xsrf_rejected a req
   then (WriteHeader 500 ;; _ <- Write_ "xrsf error." ;; ret tt)
   else
     out <- DoCr_invoke h req match_ ;;
     let '(vc, rets, err) := out in
     DoCr_finish h vc rets err)%go.

(** func (h *actionHandler) Do (line 70), func (h *staticHandler) Do
    (line 23): the interface call [handler.Do(w, req)]. *)
Definition Do (h : handler) (req : Request) : M unit :=
  match h with
  | HAction h => DoCr h req []
  | HStatic h => ServeStatic (sh_app h) req
  end.

(** *** The router *)

(** What [handle] ends up calling. *)
Inductive selection :=
| SelExact (h : handler)                               (* line 249 *)
| SelPattern (h : actionHandler) (caps : list string)  (* line 264 *)
| SelIndex (h : handler)                               (* line 272 *)
| SelNone                                              (* line 277 *)
| SelPanic (v : string).                               (* a run-time panic *)

(** Lines 254-266: the loop over [rgRoutes]; [None] when it runs to its
    end.  A nil [cr] makes [MatchString] panic, a nil [match] makes
    [match[0]] panic. *)
Fixpoint rangeRgRoutes (rg : list actionHandler) (requestPath : string)
    : option selection :=
  match rg with
  | [] => None
  | h :: rg' =>
      match ah_cr h with
      | None => Some (SelPanic "invalid memory address or nil pointer dereference")
      | Some cr =>
          if negb (MatchString cr requestPath) then rangeRgRoutes rg' requestPath
          else
            match FindStringSubmatch cr requestPath with
            | [] => Some (SelPanic "index out of range")
            | m0 :: caps =>
                if negb (Nat.eqb (String.length m0) (String.length requestPath))
                then rangeRgRoutes rg' requestPath
                else Some (SelPattern h caps)
            end
      end
  end.

(** Lines 269-275: the loop over [defaultIndex]. *)
Fixpoint rangeDefaultIndex (routes : gmap string handler) (pages : list string)
    (requestPath : string) : option selection :=
  match pages with
  | [] => None
  | page :: pages' =>
      let idxPath := path_Join requestPath page in
      match routes !! idxPath with
      | Some h => Some (SelIndex h)
      | None => rangeDefaultIndex routes pages' requestPath
      end
  end.

(** Lines 235-239 and 246-277 of [handle]: which handler is called. *)
Definition handle_select (r : Routes) (req : Request) : selection :=
  let method := Method req in
  let method := if String.eqb method "HEAD" then "GET" else method in
  let requestPath := URLPath req in
  match mapRoutes r !! requestPath with
  | Some h => SelExact h
  | None =>
      match rangeRgRoutes (rgRoutes r) requestPath with
      | Some sel => sel
      | None =>
          match rangeDefaultIndex (mapRoutes r) (defaultIndex r) requestPath with
          | Some sel => sel
          | None => SelNone
          end
      end
  end.

(** func (r *Routes) handle (line 234); [date] is
    [webTime(time.Now().UTC())]. *)
Definition handle (r : Routes) (req : Request) (date : string) : M unit :=
  (SetHeader "Server" "xweb" ;;
   SetHeader "Date" date ;;
   match handle_select r req with
   | SelExact h => Do h req
   | SelPattern h caps => DoCr h req caps
   | SelIndex h => Do h req
   | SelNone => ret tt
   | SelPanic v => panic v
   end)%go.

(** *** Notions used to state the properties *)

Definition with_rgRoutes (rg : list actionHandler) (r : Routes) : Routes :=
  {| r_app := r_app r; mapRoutes := mapRoutes r; rgRoutes := rg;
     defaultIndex := defaultIndex r |}.

Definition with_defaultIndex (pages : list string) (r : Routes) : Routes :=
  {| r_app := r_app r; mapRoutes := mapRoutes r; rgRoutes := rgRoutes r;
     defaultIndex := pages |}.

(** The same handlers with other allowed-method sets. *)
Definition ah_retag (g : gmap string bool -> gmap string bool) (h : actionHandler)
    : actionHandler :=
  {| ah_app := ah_app h; ah_methods := g (ah_methods h); ah_cr := ah_cr h;
     ah_ctype := ah_ctype h; ah_handler := ah_handler h |}.

Definition h_retag (g : gmap string bool -> gmap string bool) (h : handler) : handler :=
  match h with
  | HStatic h => HStatic h
  | HAction h => HAction (ah_retag g h)
  end.

Definition r_retag (g : gmap string bool -> gmap string bool) (r : Routes) : Routes :=
  {| r_app := r_app r; mapRoutes := h_retag g <$> mapRoutes r;
     rgRoutes := map (ah_retag g) (rgRoutes r); defaultIndex := defaultIndex r |}.

Definition sel_retag (g : gmap string bool -> gmap string bool) (sel : selection)
    : selection :=
  match sel with
  | SelExact h => SelExact (h_retag g h)
  | SelPattern h caps => SelPattern (ah_retag g h) caps
  | SelIndex h => SelIndex (h_retag g h)
  | SelNone => SelNone
  | SelPanic v => SelPanic v
  end.

(** The state once [DoCr] has set the default content type (line 88). *)
Definition with_CT (st : St) : St :=
  {| env := {| ew := w_SetHeader "Content-Type" "text/html; charset=utf-8" (ew (env st));
               elogs := elogs (env st);
               eret := eret (env st) |};
     calls := calls st |}.

(** The state once [Abort(status, body)] has run. *)
Definition aborted (status : Z) (body : string) (st : St) : St :=
  {| env := {| ew := fst (w_Write body (w_WriteHeader status (ew (env st))));
               elogs := elogs (env st);
               eret := eret (env st) |};
     calls := calls st |}.

(** The state once [DoCr] holds the values the action returned (line
    146). *)
Definition holding (rets : list rvalue) (st : St) : St :=
  {| env := {| ew := ew (env st); elogs := elogs (env st); eret := rets |};
     calls := calls st |}.

(** The state once [line] has been logged. *)
Definition logged (line : string) (st : St) : St :=
  {| env := Println line (env st); calls := calls st |}.

(** The state once [content] has been rendered (lines 179-183). *)
Definition rendered (content : string) (st : St) : St :=
  let w1 := w_SetHeader "Content-Length" (strconv.Itoa (String.length content))
              (ew (env st)) in
  let '(w2, werr) := w_Write content w1 in
  {| env := {| ew := w2;
               elogs := match werr with
                        | Some e => elogs (env st) ++ ["Error during write:  " ++ e]%string
                        | None => elogs (env st)
                        end;
               eret := eret (env st) |};
     calls := calls st |}.

(** The call a hook leaves in the trace, when the type has the hook. *)
Definition hook_calls (t : rtype U) (name : string) (args : list arg) : list Call :=
  match MethodByName t name with
  | Some _ => [CallHook name args]
  | None => []
  end.

(** A pattern route accepts a path when its compiled pattern's match is
    the whole path; [caps] are the sub-matches. *)
Definition full_match (h : actionHandler) (requestPath : string) (caps : list string)
    : Prop :=
  exists cr, ah_cr h = Some cr /\ FindStringSubmatch cr requestPath = requestPath :: caps.

(** Every entry of the pattern list carries a compiled pattern. *)
Definition compiled (rg : list actionHandler) : Prop :=
  Forall (fun h => is_Some (ah_cr h)) rg.

(** One call of [addAction]. *)
Record registration := mkRegistration {
  reg_source : string;
  reg_methods : gmap string bool;
  reg_ctype : rtype U;
  reg_action : string
}.

(** Registering in order, as start-up code does; a failed registration
    leaves the table as it was. *)
Definition registerAll (r : Routes) (regs : list registration) : Routes :=
  fold_left (fun r reg =>
    fst (addAction r (reg_source reg) (reg_methods reg) (reg_ctype reg) (reg_action reg)))
    regs r.

(** The pattern entry a registration makes, when it makes one. *)
Definition pattern_entry (app : App) (reg : registration) : option actionHandler :=
  if strings.ContainsAny (reg_source reg) "*?" then
    match Compile (reg_source reg) with
    | inl cr => Some {| ah_app := app; ah_methods := reg_methods reg; ah_cr := Some cr;
                        ah_ctype := reg_ctype reg; ah_handler := reg_action reg |}
    | inr _ => None
    end
  else None.

(** *** Further notions, for the rest of route.go's behaviour *)

(** The state once [handle] has set its two headers (lines 242-244). *)
Definition with_server_headers (date : string) (st : St) : St :=
  {| env := {| ew := w_SetHeader "Date" date (w_SetHeader "Server" "xweb" (ew (env st)));
               elogs := elogs (env st);
               eret := eret (env st) |};
     calls := calls st |}.

(** Lines 110-184 of [DoCr]: the life cycle past the CSRF check. *)
Definition DoCr_lifecycle (h : actionHandler) (req : Request) (match_ : list string)
    : M unit :=
  (out <- DoCr_invoke h req match_ ;;
   let '(vc, rets, err) := out in
   DoCr_finish h vc rets err)%go.

(** The route tables that [NewRoutes], [addStatic] and [addAction] can
    build, the only functions of route.go that write the fields of
    [Routes]. *)
Inductive built : Routes -> Prop :=
| built_NewRoutes (app : App) (defaultHome : list string) :
    built (NewRoutes app defaultHome)
| built_addStatic (r : Routes) (s : string) (h : handler) :
    built r -> built (fst (addStatic r s h))
| built_addAction (r : Routes) (s : string) (ms : gmap string bool) (ct : rtype U)
    (name : string) :
    built r -> built (fst (addAction r s ms ct name)).

(** Whether choosing the handler panicked. *)
Definition sel_panics (sel : selection) : bool :=
  match sel with SelPanic _ => true | _ => false end.

(** The sources of a list of registrations that have no [*] and no [?]. *)
Definition literal_sources (regs : list registration) : list string :=
  List.filter (fun s => negb (strings.ContainsAny s "*?")) (map reg_source regs).

(** Lines 113-128: the instance [DoCr] constructs and binds. *)
Definition bound (h : actionHandler) (req : Request) : U :=
  let a := ah_app h in
  let vc := New (ah_ctype h) in
  let c := {| ARequest := req; AApp := a; AT := VarMaps a; Af := ∅ |} in
  let vc := match FieldAction (ah_ctype h) with Some set => set c vc | None => vc end in
  let vc := match FieldC (ah_ctype h) with Some set => set vc | None => vc end in
  StructMap a vc req.

(** The state once the instance has been constructed (line 113). *)
Definition constructed (h : actionHandler) (st : St) : St :=
  {| env := env st; calls := calls st ++ [CallNew (TypeString (ah_ctype h))] |}.

End Router.

(** ** A path join and a pattern engine to run the router on

    The theorems below hold for every [path.Join] and every library that
    meets [RegexpLib].  To run the router on concrete requests, [GoPath]
    gives [path.Join] (join with a slash, then [path.Clean]) and
    [MiniRegexp] a backtracking matcher with Go's leftmost-first
    preference for a fragment of its syntax: literals, [.], the classes
    [\d] [\w] [\s], escaped punctuation, groups, [|], the anchors, and the
    greedy and lazy [*], [+], [?].  What lies outside the fragment is
    refused by [MiniRegexp.compile] as unsupported. *)

Module GoPath.

(** [strings.Split(s, "/")] *)
Fixpoint split (s cur : string) : list string :=
  match s with
  | EmptyString => [cur]
  | String c s' =>
      if Ascii.eqb c "/" then cur :: split s' "" else split s' (cur ++ String c "")
  end.

(** The elements kept by [Clean], innermost first. *)
Fixpoint clean (rooted : bool) (elems out : list string) : list string :=
  match elems with
  | [] => out
  | e :: elems' =>
      if String.eqb e "" || String.eqb e "." then clean rooted elems' out
      else if String.eqb e ".." then
        match out with
        | top :: out' =>
            if String.eqb top ".." then clean rooted elems' (e :: out)
            else clean rooted elems' out'
        | [] => if rooted then clean rooted elems' [] else clean rooted elems' [e]
        end
      else clean rooted elems' (e :: out)
  end.

Definition Clean (p : string) : string :=
  match p with
  | EmptyString => "."
  | String c _ =>
      let rooted := Ascii.eqb c "/" in
      let body := String.concat "/" (rev (clean rooted (split p "") [])) in
      if rooted then String "/" body
      else if String.eqb body "" then "." else body
  end.

(** [path.Join(a, b)]: empty elements are ignored, the rest is joined
    with slashes and cleaned. *)
Definition Join (a b : string) : string :=
  match a, b with
  | EmptyString, EmptyString => ""
  | EmptyString, _ => Clean b
  | _, EmptyString => Clean a
  | _, _ => Clean (a ++ "/" ++ b)
  end.

End GoPath.

Module MiniRegexp.

Inductive cls := CAny | CDigit | CWord | CSpace.

Inductive re :=
| Empty
| Lit (c : ascii)
| Cls (k : cls)
| Bol
| Eol
| Cat (a b : re)
| Alt (a b : re)
| Star (greedy : bool) (a : re)
| Group (n : nat) (a : re).

Definition digits : string := "0123456789".
Definition letters : string := "abcdefghijklmnopqrstuvwxyzABCDEFGHIJKLMNOPQRSTUVWXYZ_".
Definition blanks : string := String "009" (String "010" (String "012" (String "013" " "))).

Definition in_cls (k : cls) (c : ascii) : bool :=
  match k with
  | CAny => negb (Ascii.eqb c "010")
  | CDigit => strings.hasByte digits c
  | CWord => strings.hasByte digits c || strings.hasByte letters c
  | CSpace => strings.hasByte blanks c
  end.

(** Group number, start and end of what it captured last. *)
Definition captures := list (nat * (nat * nat)).

Fixpoint captured (n : nat) (caps : captures) : option (nat * nat) :=
  match caps with
  | [] => None
  | (m, span) :: caps' => if Nat.eqb m n then Some span else captured n caps'
  end.

(** The backtracking matcher: [run r s pos caps k] matches [r] at the
    head of [s], which starts at offset [pos] of the subject, and hands
    what is left to [k]; alternatives are tried in order of preference. *)
Fixpoint run (r : re) (s : string) (pos : nat) (caps : captures)
    (k : string -> nat -> captures -> option (nat * captures))
    : option (nat * captures) :=
  match r with
  | Empty => k s pos caps
  | Lit c =>
      match s with
      | String d s' => if Ascii.eqb c d then k s' (S pos) caps else None
      | EmptyString => None
      end
  | Cls cl =>
      match s with
      | String d s' => if in_cls cl d then k s' (S pos) caps else None
      | EmptyString => None
      end
  | Bol => if Nat.eqb pos 0 then k s pos caps else None
  | Eol => match s with EmptyString => k s pos caps | _ => None end
  | Cat a b => run a s pos caps (fun s' pos' caps' => run b s' pos' caps' k)
  | Alt a b =>
      match run a s pos caps k with
      | Some m => Some m
      | None => run b s pos caps k
      end
  | Star greedy a =>
      (fix loop (fuel : nat) (s : string) (pos : nat) (caps : captures) :=
         match fuel with
         | O => k s pos caps
         | S fuel' =>
             let again :=
               run a s pos caps (fun s' pos' caps' =>
                 if Nat.eqb pos' pos then None else loop fuel' s' pos' caps') in
             if greedy then
               match again with Some m => Some m | None => k s pos caps end
             else
               match k s pos caps with Some m => Some m | None => again end
         end) (String.length s) s pos caps
  | Group n a =>
      run a s pos caps (fun s' pos' caps' => k s' pos' ((n, (pos, pos')) :: caps'))
  end.

(** The leftmost match: the first offset at which [r] matches. *)
Fixpoint search (r : re) (s : string) (pos : nat) : option (nat * nat * captures) :=
  match run r s pos [] (fun _ pos' caps' => Some (pos', caps')) with
  | Some (stop, caps) => Some (pos, stop, caps)
  | None =>
      match s with
      | EmptyString => None
      | String _ s' => search r s' (S pos)
      end
  end.

(** A compiled pattern: the program and the number of its groups. *)
Record prog := mkProg { code : re; groups : nat }.

Definition cat_of (acc : list re) : re :=
  fold_left (fun r a => match r with Empty => a | _ => Cat a r end) acc Empty.

Definition alt_of (alts : list re) (last : re) : re :=
  fold_left (fun r a => Alt a r) alts last.

(** What the parser refuses: the kind of error, and the piece of the
    source at fault when it is not the whole of it. *)
Definition refusal : Type := string * option string.

(** The parser.  [alts] are the finished alternatives of the group being
    read (latest first), [acc] the atoms of the current one (latest
    first); [rep] is the repetition operator the latest atom ends with,
    if it ends with one. *)
Fixpoint parse (fuel depth : nat) (s : string) (g : nat) (alts acc : list re)
    (rep : option string) : refusal + (re * string * nat) :=
  match fuel with
  | O => inl ("expression nests too deeply", None)
  | S fuel' =>
      let atom a rest g' := parse fuel' depth rest g' alts (a :: acc) None in
      let repeat (op : string) (mk : re -> re) rest :=
        match rep, acc with
        | Some before, _ =>
            inl ("invalid nested repetition operator", Some (before ++ op)%string)
        | None, [] => inl ("missing argument to repetition operator", Some op)
        | None, a :: acc' => parse fuel' depth rest g alts (mk a :: acc') (Some op)
        end in
      match s with
      | EmptyString =>
          match depth with
          | O => inr (alt_of alts (cat_of acc), "", g)
          | S _ => inl ("missing closing )", None)
          end
      | String c rest =>
          if Ascii.eqb c "|" then parse fuel' depth rest g (cat_of acc :: alts) [] None
          else if Ascii.eqb c "(" then
            match parse fuel' (S depth) rest (S g) [] [] None with
            | inl e => inl e
            | inr (a, rest', g') => atom (Group g a) rest' g'
            end
          else if Ascii.eqb c ")" then
            match depth with
            | O => inl ("unexpected )", None)
            | S _ => inr (alt_of alts (cat_of acc), rest, g)
            end
          else if Ascii.eqb c "*" then repeat "*" (fun a => Star true a) rest
          else if Ascii.eqb c "+" then repeat "+" (fun a => Cat a (Star true a)) rest
          else if Ascii.eqb c "?" then
            match rep, acc with
            | Some "*", Star _ a :: acc' =>
                parse fuel' depth rest g alts (Star false a :: acc') (Some "*?")
            | Some "+", Cat a _ :: acc' =>
                parse fuel' depth rest g alts (Cat a (Star false a) :: acc') (Some "+?")
            | Some "?", Alt a _ :: acc' =>
                parse fuel' depth rest g alts (Alt Empty a :: acc') (Some "??")
            | _, _ => repeat "?" (fun a => Alt a Empty) rest
            end
          else if Ascii.eqb c "." then atom (Cls CAny) rest g
          else if Ascii.eqb c "^" then atom Bol rest g
          else if Ascii.eqb c "$" then atom Eol rest g
          else if Ascii.eqb c "\" then
            match rest with
            | EmptyString => inl ("trailing backslash at end of expression", Some "")
            | String e rest' =>
                if Ascii.eqb e "d" then atom (Cls CDigit) rest' g
                else if Ascii.eqb e "w" then atom (Cls CWord) rest' g
                else if Ascii.eqb e "s" then atom (Cls CSpace) rest' g
                else if in_cls CWord e then
                  inl ("unsupported escape sequence", Some (String "\" (String e "")))
                else atom (Lit e) rest' g
            end
          else if Ascii.eqb c "[" || Ascii.eqb c "{" then
            inl ("unsupported syntax", Some (String c ""))
          else atom (Lit c) rest g
      end
  end.

(** One step for each byte of the source and one for its end. *)
Fixpoint steps (src : string) : nat :=
  match src with
  | EmptyString => 1
  | String _ src' => S (steps src')
  end.

(** [regexp.Compile]; the error reads as Go's does. *)
Definition compile (src : string) : prog + string :=
  match parse (steps src) 0 src 1 [] [] None with
  | inl (kind, at_) =>
      inr ("error parsing regexp: " ++ kind ++ ": `" ++ default src at_ ++ "`")%string
  | inr (r, _, g) => inl {| code := r; groups := g - 1 |}
  end.

Definition matchString (p : prog) (s : string) : bool :=
  match search (code p) s 0 with
  | Some _ => true
  | None => false
  end.

(** [s[i:j]] *)
Definition slice (s : string) (i j : nat) : string := substring i (j - i) s.

Definition findStringSubmatch (p : prog) (s : string) : list string :=
  match search (code p) s 0 with
  | None => []
  | Some (start, stop, caps) =>
      slice s start stop ::
      map (fun n => match captured n caps with
                    | Some (i, j) => slice s i j
                    | None => ""
                    end) (seq 1 (groups p))
  end.

End MiniRegexp.

(** [MiniRegexp] as the library; it meets the contract. *)
Definition MiniLib : RegexpLib.
Proof.
  refine {| Regexp := MiniRegexp.prog;
            Compile := MiniRegexp.compile;
            MatchString := MiniRegexp.matchString;
            FindStringSubmatch := MiniRegexp.findStringSubmatch |}.
  - intros p s. unfold MiniRegexp.matchString, MiniRegexp.findStringSubmatch.
    abstract (destruct (MiniRegexp.search _ _ _) as [[[i j] caps]|]; split; congruence).
  - intros p s m0 ms. unfold MiniRegexp.findStringSubmatch, MiniRegexp.slice.
    abstract (destruct (MiniRegexp.search _ _ _) as [[[i j] caps]|];
              [intros H; injection H as <- _; eauto|discriminate]).
Defined.

(** ** Fixtures

    A small application to run the router on, through [MiniRegexp] and
    [GoPath.Join]. *)

Module Demo.

(** The controller instance remembers which of its methods ran. *)
Definition ran (name : string) (rets : list rvalue) : rmethod (list string) :=
  fun _ vc e => Returns rets (vc ++ [name]) e.

(** [c.ResponseWriter.Write(b)] from controller code. *)
Definition writes (b : string) (e : Env) : Env :=
  {| ew := fst (w_Write b (ew e)); elogs := elogs e; eret := eret e |}.

(** [main.Page]: hooks before and after; an action that returns "ok", one
    that indexes out of range, one that writes to the response itself and
    then returns "ok", and one that writes and then indexes out of range. *)
Definition Page : rtype (list string) :=
  {| TypeString := "main.Page";
     New := [];
     FieldAction := Some (fun _ vc => vc);
     FieldC := None;
     MethodByName := fun name =>
       if String.eqb name "Before" then Some (ran "Before" [])
       else if String.eqb name "After" then Some (ran "After" [])
       else if String.eqb name "Show" then Some (ran "Show" [VString "ok"])
       else if String.eqb name "Crash" then
         Some (fun _ vc e => Panics "runtime error: index out of range" vc e)
       else if String.eqb name "Stream" then
         Some (fun _ vc e => Returns [VString "ok"] vc (writes "x" e))
       else if String.eqb name "Partial" then
         Some (fun _ vc e => Panics "runtime error: index out of range" vc (writes "x" e))
       else None |}.

(** [main.Audited]: an action that returns "ok" and an After hook that
    panics. *)
Definition Audited : rtype (list string) :=
  {| TypeString := "main.Audited";
     New := [];
     FieldAction := None;
     FieldC := None;
     MethodByName := fun name =>
       if String.eqb name "After" then
         Some (fun _ vc e => Panics "audit log unavailable" vc e)
       else if String.eqb name "Show" then Some (ran "Show" [VString "ok"])
       else None |}.

Definition app : App :=
  {| BasePath := "/";
     Config := {| StaticDir := "static"; MaxUploadSize := 1048576; CheckXrsf := true |};
     VarMaps := ∅ |}.

(** The cookie is [_xsrf], nothing is bound from the form, static
    files are served by doing nothing, paths are joined as Go does. *)
Definition platform : Externals :=
  {| U := list string;
     XSRF_TAG := "_xsrf";
     StructMap := fun _ vc _ => vc;
     ServeStatic := fun _ _ => ret tt;
     path_Join := GoPath.Join |}.

#[local] Existing Instance MiniLib.
#[local] Existing Instance platform.

Definition reg (s name : string) : registration :=
  {| reg_source := s; reg_methods := {["GET" := true]}; reg_ctype := Page;
     reg_action := name |}.

(** The table start-up code builds. *)
Definition routes : Routes :=
  registerAll (NewRoutes app ["index.htm"; "index.html"])
    [reg "/hello" "Show";
     reg "/crash" "Crash";
     reg "/stream" "Stream";
     reg "/partial" "Partial";
     reg "/img/(.*)" "Crash";
     reg "/files/(.*)" "Show";
     reg "/files/a.*" "Crash";
     reg "/docs/index.html" "Show";
     reg "/user/(\d+)" "Show"].

Definition request (meth path : string) (cookies : list Cookie) (form : Values)
    : Request :=
  {| Method := meth; URLPath := path; Header := ∅; Cookies := cookies; Form := ∅;
     urlencodedForm := form; multipartForm := fun _ => ∅ |}.

Definition get (path : string) : Request := request "GET" path [] ∅.

(** A response nothing has been written to, an empty log, no call yet. *)
Definition st0 : St :=
  {| env := {| ew := {| wheader := ∅; wstatus := None; wbody := ""; wbroken := None |};
               elogs := [];
               eret := [] |};
     calls := [] |}.

Definition select (r : Routes) (req : Request) : selection := handle_select r req.

Definition serve (r : Routes) (req : Request) : result unit :=
  handle r req "Sun, 01 Nov 2026 00:00:00 GMT" st0.

(** The handler [addAction] makes for a literal route. *)
Definition exact_route (name : string) : actionHandler :=
  {| ah_app := app; ah_methods := {["GET" := true]}; ah_cr := None;
     ah_ctype := Page; ah_handler := name |}.

(** The table before anything is registered. *)
Definition no_routes : Routes := NewRoutes app [].

(** A hand-built pattern route. *)
Definition pattern_route (src name : string) : actionHandler :=
  {| ah_app := app; ah_methods := {["GET" := true]};
     ah_cr := match Compile src with inl cr => Some cr | inr _ => None end;
     ah_ctype := Page; ah_handler := name |}.

(** The outcome of a request, as a client and an operator see it: status,
    body, Content-Length, log, and the reflective calls that were made. *)
Definition outcome (r : result unit)
    : option (option Z * string * string * list string * list Call) :=
  match r with
  | Done _ st =>
      Some (wstatus (ew (env st)), wbody (ew (env st)),
            Header_Get (wheader (ew (env st))) "Content-Length", elogs (env st), calls st)
  | Panic _ _ => None
  end.

(** [main.Kinds]: actions that return nothing, an error, a number, and
    a byte slice of the named type [main.Raw]. *)
Definition Kinds : rtype (list string) :=
  {| TypeString := "main.Kinds";
     New := [];
     FieldAction := None;
     FieldC := None;
     MethodByName := fun name =>
       if String.eqb name "After" then Some (ran "After" [])
       else if String.eqb name "Nothing" then Some (ran "Nothing" [])
       else if String.eqb name "Fail" then Some (ran "Fail" [VError "no such user"])
       else if String.eqb name "Count" then Some (ran "Count" [VOther])
       else if String.eqb name "Raw" then
         Some (ran "Raw" [VRefused "interface conversion: interface {} is main.Raw, not []uint8"])
       else None |}.

(** [main.Guarded]: a Before hook that panics. *)
Definition Guarded : rtype (list string) :=
  {| TypeString := "main.Guarded";
     New := [];
     FieldAction := None;
     FieldC := None;
     MethodByName := fun name =>
       if String.eqb name "Before" then
         Some (fun _ vc e => Panics "not logged in" vc e)
       else if String.eqb name "Show" then Some (ran "Show" [VString "ok"])
       else None |}.

(** [actionResult[i] = v] from controller code; out of range the hook
    panics in Go, and is then a method that panics here. *)
Definition overwrite (i : nat) (v : rvalue) (e : Env) : Env :=
  {| ew := ew e; elogs := elogs e; eret := <[i:=v]> (eret e) |}.

(** [main.Stamped]: an action that returns "ok" and an After hook that
    puts another string in the place of the first returned value. *)
Definition Stamped : rtype (list string) :=
  {| TypeString := "main.Stamped";
     New := [];
     FieldAction := None;
     FieldC := None;
     MethodByName := fun name =>
       if String.eqb name "After" then
         Some (fun _ vc e => Returns [] vc (overwrite 0 (VString "stamped") e))
       else if String.eqb name "Show" then Some (ran "Show" [VString "ok"])
       else None |}.

(** A handler for an action of a given type. *)
Definition action_of (ct : rtype (list string)) (name : string) : actionHandler :=
  {| ah_app := app; ah_methods := ∅; ah_cr := None; ah_ctype := ct; ah_handler := name |}.


End Demo.

(** ** Properties *)

Section Properties.

Context {L : RegexpLib} {X : Externals}.

Set Default Proof Using "Type".

(** A slice as long as the string is the string. *)
Lemma substring_length_le (s : string) : forall i n,
  String.length (substring i n s) <= String.length s.
Proof.
  induction s as [|c s IH]; intros [|i] [|n]; simpl; try lia.
  - specialize (IH 0 n). lia.
  - specialize (IH i 0). lia.
  - specialize (IH i (S n)). lia.
Qed.

Lemma substring_full (s : string) : forall i n,
  String.length (substring i n s) = String.length s -> substring i n s = s.
Proof.
  induction s as [|c s IH]; intros [|i] [|n]; simpl; intros H; try done.
  - f_equal. apply IH. lia.
  - pose proof (substring_length_le s i 0). lia.
  - pose proof (substring_length_le s i (S n)). lia.
Qed.

(** What the pattern loop accepts is a full match, by an entry of the list. *)
Lemma rangeRgRoutes_pattern (rg : list actionHandler) (requestPath : string)
    (h : actionHandler) (caps : list string) :
  rangeRgRoutes rg requestPath = Some (SelPattern h caps) ->
  In h rg /\ full_match h requestPath caps.
Proof.
  induction rg as [|h' rg IH]; simpl; [done|].
  destruct (ah_cr h') as [cr|] eqn:Hcr; [|done].
  destruct (MatchString cr requestPath) eqn:Hm; simpl.
  - destruct (FindStringSubmatch cr requestPath) as [|m0 ms] eqn:Hf; [done|].
    destruct (Nat.eqb _ _) eqn:Hlen; simpl.
    + intros [= <- <-]. split; [by left|]. exists cr. split; [done|].
      apply Nat.eqb_eq in Hlen.
      destruct (Find_text _ _ _ _ Hf) as (i & n & ->).
      by rewrite (substring_full _ _ _ Hlen) in Hf.
    + intros H. destruct (IH H). split; [by right|done].
  - intros H. destruct (IH H). split; [by right|done].
Qed.

(** The loop skips an entry that does not accept the path. *)
Lemma rangeRgRoutes_skip (h : actionHandler) (rg : list actionHandler)
    (requestPath : string) :
  is_Some (ah_cr h) -> (forall caps, ~ full_match h requestPath caps) ->
  rangeRgRoutes (h :: rg) requestPath = rangeRgRoutes rg requestPath.
Proof.
  intros [cr Hcr] Hno. simpl. rewrite Hcr.
  destruct (MatchString cr requestPath) eqn:Hm; simpl; [|done].
  destruct (FindStringSubmatch cr requestPath) as [|m0 ms] eqn:Hf.
  - apply MatchString_Find in Hm. done.
  - destruct (Nat.eqb _ _) eqn:Hlen; simpl; [|done].
    apply Nat.eqb_eq in Hlen.
    destruct (Find_text _ _ _ _ Hf) as (i & n & ->).
    rewrite (substring_full _ _ _ Hlen) in Hf.
    exfalso. apply (Hno ms). by exists cr.
Qed.

(** The loop stops at an entry that accepts the path. *)
Lemma rangeRgRoutes_hit (h : actionHandler) (rg : list actionHandler)
    (requestPath : string) (caps : list string) :
  full_match h requestPath caps ->
  rangeRgRoutes (h :: rg) requestPath = Some (SelPattern h caps).
Proof.
  intros (cr & Hcr & Hf). simpl. rewrite Hcr.
  assert (MatchString cr requestPath = true) as ->.
  { apply MatchString_Find. by rewrite Hf. }
  simpl. by rewrite Hf, Nat.eqb_refl.
Qed.

Lemma rangeRgRoutes_first (l1 l2 : list actionHandler) (h : actionHandler)
    (requestPath : string) (caps : list string) :
  compiled l1 ->
  (forall h', In h' l1 -> forall caps', ~ full_match h' requestPath caps') ->
  full_match h requestPath caps ->
  rangeRgRoutes (l1 ++ h :: l2) requestPath = Some (SelPattern h caps).
Proof.
  intros Hc Hno Hh. induction l1 as [|h' l1 IH]; simpl app.
  - by apply rangeRgRoutes_hit.
  - inversion Hc; subst. rewrite rangeRgRoutes_skip; [|done|by apply Hno; left].
    apply IH; [done|]. intros h'' Hin. apply Hno. by right.
Qed.

Lemma rangeRgRoutes_none (rg : list actionHandler) (requestPath : string) :
  compiled rg ->
  (forall h, In h rg -> forall caps, ~ full_match h requestPath caps) ->
  rangeRgRoutes rg requestPath = None.
Proof.
  intros Hc Hno. induction rg as [|h rg IH]; [done|].
  inversion Hc; subst. rewrite rangeRgRoutes_skip; [|done|by apply Hno; left].
  apply IH; [done|]. intros h' Hin. apply Hno. by right.
Qed.

Lemma rangeDefaultIndex_index (routes : gmap string handler) (pages : list string)
    (requestPath : string) (sel : selection) :
  rangeDefaultIndex routes pages requestPath = Some sel -> exists h, sel = SelIndex h.
Proof.
  induction pages as [|page pages IH]; simpl; [done|].
  destruct (routes !! _) as [h|]; [|done]. intros [= <-]. by exists h.
Qed.

Lemma rangeDefaultIndex_first (routes : gmap string handler) (l1 l2 : list string)
    (page requestPath : string) (h : handler) :
  (forall p, In p l1 -> routes !! path_Join requestPath p = None) ->
  routes !! path_Join requestPath page = Some h ->
  rangeDefaultIndex routes (l1 ++ page :: l2) requestPath = Some (SelIndex h).
Proof.
  intros Hno Hh. induction l1 as [|p l1 IH]; simpl.
  - by rewrite Hh.
  - rewrite (Hno p) by (by left). apply IH. intros p' Hin. apply Hno. by right.
Qed.

(** [handle] sets its two headers and calls what [handle_select] chose. *)
Lemma handle_dispatch (r : Routes) (req : Request) (date : string) (st : St) :
  handle r req date st =
  (SetHeader "Server" "xweb" ;; SetHeader "Date" date ;;
   match handle_select r req with
   | SelExact h | SelIndex h => Do h req
   | SelPattern h caps => DoCr h req caps
   | SelNone => ret tt
   | SelPanic v => panic v
   end)%go st.
Proof. unfold handle. by destruct (handle_select r req). Qed.

(** C1. A pattern route is selected only when the match its compiled
    pattern finds in the request path is the whole path: the selected
    entry is one of the pattern list, [FindStringSubmatch] on the path
    returns the path itself followed by the captures handed to the action,
    and so a pattern whose match is a proper prefix or any other proper
    part of the path is not selected. *)
Theorem pattern_route_is_anchored (r : Routes) (req : Request)
    (h : actionHandler) (caps : list string) :
  handle_select r req = SelPattern h caps ->
  In h (rgRoutes r) /\
  full_match h (URLPath req) caps /\
  (forall cr m0 ms, ah_cr h = Some cr ->
     FindStringSubmatch cr (URLPath req) = m0 :: ms -> m0 = URLPath req).
Proof.
  unfold handle_select. destruct (mapRoutes r !! URLPath req); [done|].
  destruct (rangeRgRoutes _ _) as [sel|] eqn:Hrg.
  - intros ->. apply rangeRgRoutes_pattern in Hrg as [Hin Hfull].
    split; [done|]. split; [done|].
    destruct Hfull as (cr' & Hcr' & Hf). intros cr m0 ms Hcr Hf'. congruence.
  - destruct (rangeDefaultIndex _ _ _) as [sel|] eqn:Hidx; [|done].
    apply rangeDefaultIndex_index in Hidx as [h' ->]. done.
Qed.

(** C4. A request path with an entry in the exact-match map is handed to
    that entry's handler whatever the pattern list holds, entries that
    would accept the path and entries that could not even be evaluated
    included: the pattern list is not looked at. *)
Theorem exact_entry_precedes_patterns (r : Routes) (req : Request) (date : string)
    (h : handler) (rg : list actionHandler) (st : St) :
  mapRoutes r !! URLPath req = Some h ->
  handle_select r req = SelExact h /\
  handle_select (with_rgRoutes rg r) req = SelExact h /\
  handle (with_rgRoutes rg r) req date st = handle r req date st /\
  handle r req date st =
    (SetHeader "Server" "xweb" ;; SetHeader "Date" date ;; Do h req)%go st.
Proof.
  intros Hh.
  assert (forall r', mapRoutes r' = mapRoutes r -> handle_select r' req = SelExact h) as Hsel.
  { intros r' Hr'. unfold handle_select. by rewrite Hr', Hh. }
  rewrite !handle_dispatch, !Hsel by done. done.
Qed.

Lemma addAction_app (r : Routes) (s : string) (ms : gmap string bool)
    (ct : rtype U) (name : string) :
  r_app (fst (addAction r s ms ct name)) = r_app r.
Proof. unfold addAction. destruct (negb _); [done|]. by destruct (Compile s). Qed.

(** [addAction] appends to the pattern list, or leaves it alone. *)
Lemma addAction_rgRoutes (r : Routes) (reg : registration) :
  rgRoutes (fst (addAction r (reg_source reg) (reg_methods reg) (reg_ctype reg)
                   (reg_action reg))) =
  rgRoutes r ++ match pattern_entry (r_app r) reg with Some h => [h] | None => [] end.
Proof.
  unfold addAction, pattern_entry.
  destruct (strings.ContainsAny _ _); simpl; [|by rewrite app_nil_r].
  destruct (Compile _); simpl; [done|by rewrite app_nil_r].
Qed.

(** The pattern list is in registration order. *)
Lemma registerAll_rgRoutes (regs : list registration) : forall r,
  rgRoutes (registerAll r regs) = rgRoutes r ++ omap (pattern_entry (r_app r)) regs.
Proof.
  induction regs as [|reg regs IH]; intros r; simpl.
  - by rewrite app_nil_r.
  - unfold registerAll in *. simpl. rewrite IH, addAction_rgRoutes, addAction_app.
    rewrite <- app_assoc. by destruct (pattern_entry _ _).
Qed.

Lemma pattern_entry_compiled (app : App) (reg : registration) (h : actionHandler) :
  pattern_entry app reg = Some h -> is_Some (ah_cr h).
Proof.
  unfold pattern_entry. destruct (strings.ContainsAny _ _); [|done].
  destruct (Compile _); [|done]. intros [= <-]. by eexists.
Qed.

Lemma NewRoutes_compiled (app : App) (home : list string) :
  compiled (rgRoutes (NewRoutes app home)).
Proof. constructor. Qed.

Lemma addStatic_compiled (r : Routes) (s : string) (h : handler) :
  compiled (rgRoutes r) -> compiled (rgRoutes (fst (addStatic r s h))).
Proof. done. Qed.

(** Registration keeps the pattern list compiled. *)
Lemma registerAll_compiled (r : Routes) (regs : list registration) :
  compiled (rgRoutes r) -> compiled (rgRoutes (registerAll r regs)).
Proof.
  intros Hc. rewrite registerAll_rgRoutes. apply Forall_app. split; [done|].
  apply Forall_forall. intros h Hin. apply list_elem_of_omap in Hin as (reg & _ & Hreg).
  by eapply pattern_entry_compiled.
Qed.

(** C5, as the code has it.  The pattern list is in registration order,
    and of the pattern routes that accept a request path the one
    registered first is the one the pattern loop stops at, whatever comes
    after it: when the entries registered before [h] do not accept the
    path and [h] does, the loop selects [h] with its captures, and a path
    that has no exact entry is dispatched to [h].  (A path with an exact
    entry never reaches the loop.) *)
Theorem first_registered_pattern_wins (r0 : Routes) (regs : list registration)
    (req : Request) (l1 l2 : list actionHandler) (h : actionHandler)
    (caps : list string) (date : string) (st : St) :
  compiled (rgRoutes r0) ->
  rgRoutes r0 ++ omap (pattern_entry (r_app r0)) regs = l1 ++ h :: l2 ->
  (forall h', In h' l1 -> forall caps', ~ full_match h' (URLPath req) caps') ->
  full_match h (URLPath req) caps ->
  let r := registerAll r0 regs in
  rgRoutes r = l1 ++ h :: l2 /\
  rangeRgRoutes (rgRoutes r) (URLPath req) = Some (SelPattern h caps) /\
  (mapRoutes r !! URLPath req = None ->
   handle_select r req = SelPattern h caps /\
   handle r req date st =
     (SetHeader "Server" "xweb" ;; SetHeader "Date" date ;; DoCr h req caps)%go st).
Proof.
  intros Hc Hsplit Hno Hh r.
  assert (rgRoutes r = l1 ++ h :: l2) as Hrg.
  { unfold r. by rewrite registerAll_rgRoutes. }
  assert (compiled l1) as Hc1.
  { pose proof (registerAll_compiled r0 regs Hc) as Hall. fold r in Hall.
    rewrite Hrg in Hall. by apply Forall_app in Hall as [? _]. }
  assert (rangeRgRoutes (rgRoutes r) (URLPath req) = Some (SelPattern h caps)) as Hscan.
  { rewrite Hrg. by apply rangeRgRoutes_first. }
  split; [done|]. split; [done|]. intros Hmap.
  assert (handle_select r req = SelPattern h caps) as Hsel.
  { unfold handle_select. by rewrite Hmap, Hscan. }
  split; [done|]. by rewrite handle_dispatch, Hsel.
Qed.

(** C9. For a request path with no exact entry and no accepting pattern
    route, the default-index names are tried in their configured order,
    each joined to the path and looked up in the exact-match map: the
    first name whose joined path has an entry is dispatched, and the names
    after it make no difference. *)
Theorem default_index_first_hit (r : Routes) (req : Request) (l1 l2 : list string)
    (page : string) (h : handler) (date : string) (st : St) :
  mapRoutes r !! URLPath req = None ->
  compiled (rgRoutes r) ->
  (forall h', In h' (rgRoutes r) -> forall caps, ~ full_match h' (URLPath req) caps) ->
  defaultIndex r = l1 ++ page :: l2 ->
  (forall p, In p l1 -> mapRoutes r !! path_Join (URLPath req) p = None) ->
  mapRoutes r !! path_Join (URLPath req) page = Some h ->
  handle_select r req = SelIndex h /\
  handle r req date st =
    (SetHeader "Server" "xweb" ;; SetHeader "Date" date ;; Do h req)%go st /\
  (forall l2', handle_select (with_defaultIndex (l1 ++ page :: l2') r) req = SelIndex h).
Proof.
  intros Hmap Hc Hno Hidx Hl1 Hpage.
  assert (forall r', mapRoutes r' = mapRoutes r -> rgRoutes r' = rgRoutes r ->
                     (exists l2', defaultIndex r' = l1 ++ page :: l2') ->
                     handle_select r' req = SelIndex h) as Hsel.
  { intros r' Hm Hrg [l2' Hd]. unfold handle_select.
    rewrite Hm, Hmap, Hrg, (rangeRgRoutes_none _ _ Hc Hno), Hd.
    by rewrite (rangeDefaultIndex_first _ _ _ _ _ _ Hl1 Hpage). }
  split; [apply Hsel; eauto|]. split.
  - rewrite handle_dispatch, Hsel; eauto.
  - intros l2'. apply Hsel; simpl; eauto.
Qed.

Lemma rangeRgRoutes_retag (g : gmap string bool -> gmap string bool)
    (rg : list actionHandler) (requestPath : string) :
  rangeRgRoutes (map (ah_retag g) rg) requestPath =
  sel_retag g <$> rangeRgRoutes rg requestPath.
Proof.
  induction rg as [|h rg IH]; simpl; [done|].
  destruct (ah_cr h) as [cr|]; [|done].
  destruct (MatchString cr requestPath); simpl; [|done].
  destruct (FindStringSubmatch cr requestPath) as [|m0 ms]; [done|].
  by destruct (Nat.eqb _ _).
Qed.

Lemma rangeDefaultIndex_retag (g : gmap string bool -> gmap string bool)
    (routes : gmap string handler) (pages : list string) (requestPath : string) :
  rangeDefaultIndex (h_retag g <$> routes) pages requestPath =
  sel_retag g <$> rangeDefaultIndex routes pages requestPath.
Proof.
  induction pages as [|page pages IH]; simpl; [done|].
  rewrite lookup_fmap. by destruct (routes !! _).
Qed.

Lemma Do_retag (g : gmap string bool -> gmap string bool) (h : handler) (req : Request) :
  Do (h_retag g h) req = Do h req.
Proof. by destruct h. Qed.

(** C10. Which handler [handle] calls depends on the request path alone:
    two requests with the same path, whatever their methods (and the rest
    of them), select the same handler or the same not-found outcome; and
    the allowed-method sets stored in the handlers are not consulted, by
    the selection or by the dispatch: with other sets in their place the
    same entries are selected and the request is handled the same way. *)
Theorem selection_ignores_method (r : Routes) (req1 req2 : Request)
    (g : gmap string bool -> gmap string bool) (date : string) (st : St) :
  URLPath req1 = URLPath req2 ->
  handle_select r req1 = handle_select r req2 /\
  handle_select (r_retag g r) req1 = sel_retag g (handle_select r req2) /\
  handle (r_retag g r) req1 date st = handle r req1 date st.
Proof.
  intros Hpath.
  assert (handle_select r req1 = handle_select r req2) as Hsame.
  { unfold handle_select. by rewrite Hpath. }
  assert (handle_select (r_retag g r) req1 = sel_retag g (handle_select r req1)) as Hretag.
  { unfold handle_select. simpl. rewrite lookup_fmap.
    destruct (mapRoutes r !! URLPath req1); simpl; [done|].
    rewrite rangeRgRoutes_retag. destruct (rangeRgRoutes _ _); simpl; [done|].
    rewrite rangeDefaultIndex_retag. by destruct (rangeDefaultIndex _ _ _). }
  split; [done|]. split; [by rewrite Hretag, Hsame|].
  rewrite !handle_dispatch, Hretag.
  destruct (handle_select r req1); simpl; by rewrite ?Do_retag.
Qed.

(** C6, as the code has it.  A source that contains [*] or [?] and does
    not compile is refused: [addAction] returns the compile error and the
    route table is the one it was given, so every later lookup goes as it
    did before.  (A source without [*] and [?] is never compiled, valid
    pattern or not.) *)
Theorem invalid_wildcard_source_is_refused (r : Routes) (s : string)
    (ms : gmap string bool) (ct : rtype U) (name err : string) (req : Request) :
  strings.ContainsAny s "*?" = true ->
  Compile s = inr err ->
  addAction r s ms ct name = (r, Some err) /\
  handle_select (fst (addAction r s ms ct name)) req = handle_select r req.
Proof.
  intros Hw Hc. assert (addAction r s ms ct name = (r, Some err)) as ->; [|done].
  unfold addAction. by rewrite Hw, Hc.
Qed.

(** C7, as the code has it.  [addAction] looks at the source for a [*] or
    a [?] and at nothing else.  With one of them the source is handed to
    [Compile] and the exact-match map is left alone: a compiled pattern is
    appended to the pattern list, a compile error is returned with the
    table unchanged.  Without, the source is stored as a literal key of
    the map, with no compiled pattern, no error is returned and the
    pattern list is left alone: whatever [Compile] would say of the source
    plays no part, and no other key of the map changes. *)
Theorem addAction_classifies_by_wildcard (r : Routes) (s : string)
    (ms : gmap string bool) (ct : rtype U) (name : string) :
  let h cr := {| ah_app := r_app r; ah_methods := ms; ah_cr := cr;
                 ah_ctype := ct; ah_handler := name |} in
  let r' := fst (addAction r s ms ct name) in
  let err := snd (addAction r s ms ct name) in
  if strings.ContainsAny s "*?" then
    mapRoutes r' = mapRoutes r /\
    match Compile s with
    | inl cr => rgRoutes r' = rgRoutes r ++ [h (Some cr)] /\ err = None
    | inr e => r' = r /\ err = Some e
    end
  else
    rgRoutes r' = rgRoutes r /\ err = None /\
    mapRoutes r' !! s = Some (HAction (h None)) /\
    (forall p, p <> s -> mapRoutes r' !! p = mapRoutes r !! p).
Proof.
  unfold addAction. destruct (strings.ContainsAny s "*?"); simpl.
  - by destruct (Compile s).
  - split; [done|]. split; [done|]. split; [by rewrite lookup_insert_eq|].
    intros p Hp. by rewrite lookup_insert_ne.
Qed.

(** *** The life cycle *)

Lemma DoCr_rejected (h : actionHandler) (req : Request) (match_ : list string) (st : St) :
  xsrf_rejected (ah_app h) (parsed (ah_app h) req) = true ->
  DoCr h req match_ st = Done tt (aborted 500 "xrsf error." (with_CT st)).
Proof.
  intros Hrej. unfold DoCr, bind, SetHeader, onW, onEnv. rewrite Hrej.
  unfold WriteHeader, onW, onEnv, Write_, aborted, with_CT; simpl.
  by destruct (w_Write _ _).
Qed.

Lemma DoCr_admitted (h : actionHandler) (req : Request) (match_ : list string) (st : St) :
  xsrf_rejected (ah_app h) (parsed (ah_app h) req) = false ->
  DoCr h req match_ st =
  (out <- DoCr_invoke h (parsed (ah_app h) req) match_ ;;
   let '(vc, rets, err) := out in DoCr_finish h vc rets err)%go (with_CT st).
Proof. intros Hadm. unfold DoCr, bind, SetHeader, onW, onEnv. by rewrite Hadm. Qed.

Lemma callIfValid_calls (t : rtype U) (vc vc' : U) (name : string) (args : list arg)
    (st st' : St) :
  callIfValid t vc name args st = Done vc' st' ->
  calls st' = calls st ++ hook_calls t name args.
Proof.
  unfold callIfValid, hook_calls. destruct (MethodByName t name) as [m|].
  - destruct (m args vc (env st)); [|done]. by intros [= _ <-].
  - intros [= _ <-]. by rewrite app_nil_r.
Qed.

(** From one end of [DoCr_invoke] to the other the trace grows by the
    construction, the hooks the type has, and the guarded call. *)
Lemma DoCr_invoke_calls (h : actionHandler) (req : Request) (match_ : list string)
    (st st1 : St) (out : U * list rvalue * option string) :
  DoCr_invoke h req match_ st = Done out st1 ->
  calls st1 =
  calls st ++ CallNew (TypeString (ah_ctype h)) ::
    hook_calls (ah_ctype h) "Init" [] ++
    hook_calls (ah_ctype h) "Before"
      [AString (TypeString (ah_ctype h)); AString (ah_handler h)] ++
    [CallSafely (ah_handler h) (map AString match_)].
Proof.
  unfold DoCr_invoke, bind, record.
  destruct (callIfValid _ _ "Init" _ _) as [vc1 s1|] eqn:Hinit; [|done].
  destruct (callIfValid _ _ "Before" _ _) as [vc2 s2|] eqn:Hbefore; [|done].
  apply callIfValid_calls in Hinit, Hbefore. simpl in Hinit.
  unfold safelyCall. intros Hcall.
  assert (calls st1 = calls s2 ++ [CallSafely (ah_handler h) (map AString match_)]) as ->.
  { destruct (MethodByName _ (ah_handler h)) as [m|]; [|by injection Hcall as _ <-].
    destruct (m _ _ _); by injection Hcall as _ <-. }
  rewrite Hbefore, Hinit, <- !app_assoc. done.
Qed.


Lemma parsed_Method (a : App) (req : Request) : Method (parsed a req) = Method req.
Proof. unfold parsed. by destruct (strings.Contains _ _). Qed.

Lemma parsed_Cookies (a : App) (req : Request) : Cookies (parsed a req) = Cookies req.
Proof. unfold parsed. by destruct (strings.Contains _ _). Qed.

Lemma aborted_pristine (status : Z) (body : string) (st : St) :
  pristine (ew (env st)) ->
  wstatus (ew (env (aborted status body st))) = Some status /\
  wbody (ew (env (aborted status body st))) = body.
Proof.
  intros (Hs & Hb & Hl). unfold aborted, w_Write, w_WriteHeader; simpl.
  rewrite Hl, Hs, Hb. done.
Qed.

(** C2. With CSRF checking enabled and a POST request: when the cookie
    is missing, or its value is empty, or its value differs from the form
    field of the same name, [DoCr] sends status 500, writes the body
    "xrsf error." and returns, having constructed no instance and called
    no hook and no action (the trace of reflective calls and the log are
    as they were); on a response nothing was written to, the status is 500
    and the body exactly "xrsf error.".  When the cookie is there, not
    empty, and equal to the form field, [DoCr] goes on with the rest of
    the life cycle. *)
Theorem xsrf_check (h : actionHandler) (req : Request) (match_ : list string) (st : St) :
  let a := ah_app h in
  let req' := parsed a req in
  let cookie := Request_Cookie (Cookies req) XSRF_TAG in
  CheckXrsf (Config a) = true ->
  Method req = "POST" ->
  (cookie = None \/
   (exists c, cookie = Some c /\ (Value c = "" \/ Value c <> xsrf_formVal req')) ->
   let st' := aborted 500 "xrsf error." (with_CT st) in
   DoCr h req match_ st = Done tt st' /\
   calls st' = calls st /\
   elogs (env st') = elogs (env st) /\
   (pristine (ew (env st)) ->
    wstatus (ew (env st')) = Some 500%Z /\ wbody (ew (env st')) = "xrsf error.")) /\
  (forall c, cookie = Some c -> Value c <> "" -> Value c = xsrf_formVal req' ->
   DoCr h req match_ st =
   (out <- DoCr_invoke h req' match_ ;;
    let '(vc, rets, err) := out in DoCr_finish h vc rets err)%go (with_CT st)).
Proof.
  intros a req' cookie Hon Hpost.
  assert (forall b, xsrf_mismatch req' = b -> xsrf_rejected a req' = b) as Hrej.
  { intros b <-. unfold xsrf_rejected, req'. rewrite Hon, parsed_Method, Hpost. done. }
  assert (xsrf_mismatch req' =
          match cookie with
          | None => true
          | Some c => String.eqb (Value c) "" || negb (String.eqb (Value c) (xsrf_formVal req'))
          end) as Hmis.
  { unfold xsrf_mismatch, req', cookie. by rewrite parsed_Cookies. }
  split.
  - intros Hfail st'. rewrite DoCr_rejected.
    + split; [done|]. split; [done|]. split; [done|].
      intros Hp. apply aborted_pristine. destruct Hp as (? & ? & ?). done.
    + apply Hrej. rewrite Hmis. destruct Hfail as [->|(c & -> & [Hc|Hc])]; [done| |].
      * rewrite Hc. done.
      * apply String.eqb_neq in Hc. rewrite Hc. by rewrite orb_true_r.
  - intros c Hc Hne Heq. apply DoCr_admitted. apply Hrej. rewrite Hmis, Hc.
    apply String.eqb_neq in Hne. apply String.eqb_eq in Heq. by rewrite Hne, Heq.
Qed.






End Properties.

(** ** Further properties of route.go: registration and routing *)

Section Coverage.

Context {L : RegexpLib} {X : Externals}.

Set Default Proof Using "Type".


(** What the pattern loop decided stays decided when entries are
    appended. *)
Lemma rangeRgRoutes_app (rg more : list actionHandler) (requestPath : string)
    (sel : selection) :
  rangeRgRoutes rg requestPath = Some sel ->
  rangeRgRoutes (rg ++ more) requestPath = Some sel.
Proof.
  induction rg as [|h rg IH]; simpl; [done|].
  destruct (ah_cr h) as [cr|]; [|done].
  destruct (MatchString cr requestPath); simpl; [|done].
  destruct (FindStringSubmatch cr requestPath) as [|m0 ms]; [done|].
  destruct (Nat.eqb _ _); simpl; auto.
Qed.

(** Over compiled entries the pattern loop does not panic: a pattern that
    matches has a match to index. *)
Lemma rangeRgRoutes_no_panic (rg : list actionHandler) (requestPath v : string) :
  compiled rg -> rangeRgRoutes rg requestPath <> Some (SelPanic v).
Proof.
  intros Hc. induction rg as [|h rg IH]; simpl; [done|].
  inversion Hc as [|? ? [cr Hcr] Hc']; subst. rewrite Hcr.
  destruct (MatchString cr requestPath) eqn:Hm; simpl; [|by apply IH].
  destruct (FindStringSubmatch cr requestPath) as [|m0 ms] eqn:Hf.
  - apply MatchString_Find in Hm. done.
  - destruct (Nat.eqb _ _); simpl; [done|by apply IH].
Qed.

Lemma rangeDefaultIndex_none (routes : gmap string handler) (pages : list string)
    (requestPath : string) :
  (forall p, In p pages -> routes !! path_Join requestPath p = None) ->
  rangeDefaultIndex routes pages requestPath = None.
Proof.
  intros Hno. induction pages as [|p pages IH]; simpl; [done|].
  rewrite (Hno p) by (by left). apply IH. intros p' Hin. apply Hno. by right.
Qed.

Lemma addAction_compiled (r : Routes) (s : string) (ms : gmap string bool)
    (ct : rtype U) (name : string) :
  compiled (rgRoutes r) -> compiled (rgRoutes (fst (addAction r s ms ct name))).
Proof.
  intros Hc. unfold addAction. destruct (negb _); [done|].
  destruct (Compile s); [|done]. simpl. apply Forall_app. split; [done|].
  constructor; [by eexists|constructor].
Qed.

(** Every table that can be built has a compiled pattern in each entry
    of its pattern list. *)
Lemma built_compiled (r : Routes) : built r -> compiled (rgRoutes r).
Proof.
  induction 1 as [| |r s ms ct name _ IH]; [constructor|done|by apply addAction_compiled].
Qed.

Lemma registerAll_built (regs : list registration) : forall r,
  built r -> built (registerAll r regs).
Proof.
  induction regs as [|reg regs IH]; intros r Hr; [done|].
  apply (IH (fst (addAction r (reg_source reg) (reg_methods reg) (reg_ctype reg)
                    (reg_action reg)))).
  by constructor.
Qed.

Lemma addAction_literal (r : Routes) (s : string) (ms : gmap string bool)
    (ct : rtype U) (name : string) :
  strings.ContainsAny s "*?" = false ->
  addAction r s ms ct name =
  ({| r_app := r_app r;
      mapRoutes := <[s := HAction {| ah_app := r_app r; ah_methods := ms; ah_cr := None;
                                     ah_ctype := ct; ah_handler := name |}]> (mapRoutes r);
      rgRoutes := rgRoutes r; defaultIndex := defaultIndex r |}, None).
Proof. intros Hw. unfold addAction. by rewrite Hw. Qed.

(** X1. A source with neither [*] nor [?] is registered as a literal
    route, whatever else it holds: [addAction] returns no error, leaves
    the pattern list alone, and from then on a request for exactly that
    path is handed to the new handler, the one [addAction] built from the
    table's application, with no captures. *)
Theorem literal_route_is_reachable (r : Routes) (s : string) (ms : gmap string bool)
    (ct : rtype U) (name : string) (req : Request) (date : string) (st : St) :
  strings.ContainsAny s "*?" = false ->
  URLPath req = s ->
  let h := {| ah_app := r_app r; ah_methods := ms; ah_cr := None;
              ah_ctype := ct; ah_handler := name |} in
  let r' := fst (addAction r s ms ct name) in
  snd (addAction r s ms ct name) = None /\
  rgRoutes r' = rgRoutes r /\
  handle_select r' req = SelExact (HAction h) /\
  handle r' req date st = DoCr h req [] (with_server_headers date st).
Proof.
  intros Hw Hpath h r'. unfold r'. rewrite addAction_literal by done.
  cbn [fst snd]. fold h.
  assert (handle_select
            {| r_app := r_app r; mapRoutes := <[s := HAction h]> (mapRoutes r);
               rgRoutes := rgRoutes r; defaultIndex := defaultIndex r |} req =
          SelExact (HAction h)) as Hsel.
  { unfold handle_select. simpl. by rewrite Hpath, lookup_insert_eq. }
  split; [done|]. split; [done|]. split; [done|].
  by rewrite handle_dispatch, Hsel.
Qed.

(** X2. [addStatic] stores its handler under the key as it is given,
    wildcard characters or not, and returns no error; the pattern list
    and the default-index names stay as they were.  From then on a request
    for exactly that path is handed to that handler; for a handler from
    [NewActionHandler] this is [DoCr] with no captures, on behalf of the
    application the handler was made for. *)
Theorem static_route_is_reachable (r : Routes) (s : string) (h : handler)
    (req : Request) (date : string) (st : St) :
  URLPath req = s ->
  let r' := fst (addStatic r s h) in
  snd (addStatic r s h) = None /\
  rgRoutes r' = rgRoutes r /\
  defaultIndex r' = defaultIndex r /\
  handle_select r' req = SelExact h /\
  handle r' req date st = Do h req (with_server_headers date st) /\
  (forall app ct name, h = HAction (NewActionHandler app ct name) ->
     handle r' req date st =
     DoCr {| ah_app := app; ah_methods := ∅; ah_cr := None; ah_ctype := ct;
             ah_handler := name |} req [] (with_server_headers date st)).
Proof.
  intros Hpath r'.
  assert (handle_select r' req = SelExact h) as Hsel.
  { unfold handle_select, r'. simpl. by rewrite Hpath, lookup_insert_eq. }
  assert (handle r' req date st = Do h req (with_server_headers date st)) as Hrun.
  { by rewrite handle_dispatch, Hsel. }
  repeat split; try done. intros app ct name ->. exact Hrun.
Qed.

(** X3. The exact-match map holds one handler per key, the one
    registered last: registering a literal source over a key that
    [addStatic] or [addAction] had filled gives the table that the last
    registration alone gives, and so does [addStatic] over a key that
    [addAction] had filled. *)
Theorem later_registration_replaces_earlier (r : Routes) (s : string) (h1 : handler)
    (ms1 ms : gmap string bool) (ct1 ct : rtype U) (name1 name : string) :
  strings.ContainsAny s "*?" = false ->
  fst (addAction (fst (addStatic r s h1)) s ms ct name) = fst (addAction r s ms ct name) /\
  fst (addAction (fst (addAction r s ms1 ct1 name1)) s ms ct name) =
    fst (addAction r s ms ct name) /\
  fst (addStatic (fst (addAction r s ms ct name)) s h1) = fst (addStatic r s h1).
Proof.
  intros Hw. unfold addStatic.
  repeat (rewrite addAction_literal by done;
          cbn [fst r_app mapRoutes rgRoutes defaultIndex]).
  by rewrite !insert_insert_eq.
Qed.

(** X4. A registration does not take a request away from the route that
    serves it: when a request selects an exact entry or a pattern route,
    it selects the same after [addAction] of any source that has a
    wildcard character (a new pattern goes to the end of the list) or that
    is not the request's path, and after [addStatic] under any key that is
    not the request's path. *)
Theorem registration_preserves_earlier_routes (r : Routes) (s : string)
    (ms : gmap string bool) (ct : rtype U) (name : string) (req : Request)
    (sel : selection) :
  handle_select r req = sel ->
  (exists h, sel = SelExact h) \/ (exists h caps, sel = SelPattern h caps) ->
  (strings.ContainsAny s "*?" = true \/ s <> URLPath req ->
   handle_select (fst (addAction r s ms ct name)) req = sel) /\
  (s <> URLPath req -> forall h', handle_select (fst (addStatic r s h')) req = sel).
Proof.
  intros Hsel Hkind.
  assert (forall m' rg',
            m' !! URLPath req = mapRoutes r !! URLPath req ->
            (forall sel', rangeRgRoutes (rgRoutes r) (URLPath req) = Some sel' ->
                          rangeRgRoutes rg' (URLPath req) = Some sel') ->
            handle_select {| r_app := r_app r; mapRoutes := m'; rgRoutes := rg';
                             defaultIndex := defaultIndex r |} req = sel) as Hsame.
  { intros m' rg' Hm Hrg. revert Hsel. unfold handle_select. simpl. rewrite Hm.
    destruct (mapRoutes r !! URLPath req) as [h|]; [done|].
    destruct (rangeRgRoutes (rgRoutes r) _) as [sel'|] eqn:Hscan.
    - by rewrite (Hrg _ eq_refl).
    - destruct (rangeDefaultIndex _ _ _) as [sel'|] eqn:Hidx.
      + apply rangeDefaultIndex_index in Hidx as [h ->]. intros <-.
        destruct Hkind as [[? ?]|(? & ? & ?)]; done.
      + intros <-. destruct Hkind as [[? ?]|(? & ? & ?)]; done. }
  split.
  - intros Hs. unfold addAction.
    destruct (strings.ContainsAny s "*?") eqn:Hw; simpl.
    + destruct (Compile s) as [cr|err]; simpl.
      * apply Hsame; [done|]. intros sel'. apply rangeRgRoutes_app.
      * by destruct r.
    + destruct Hs as [?|Hne]; [done|]. apply Hsame; [|done].
      by rewrite lookup_insert_ne.
  - intros Hne h'. simpl. apply Hsame; [|done]. by rewrite lookup_insert_ne.
Qed.

(** X5. On a table built by [NewRoutes], [addStatic] and [addAction],
    choosing the handler does not panic: every entry of the pattern list
    holds a compiled pattern, and a pattern that matches a path has a
    match whose first element can be read. *)
Theorem routing_never_panics (r : Routes) (req : Request) :
  built r -> sel_panics (handle_select r req) = false.
Proof.
  intros Hb. unfold handle_select.
  destruct (mapRoutes r !! URLPath req); [done|].
  destruct (rangeRgRoutes _ _) as [sel|] eqn:Hscan.
  - destruct sel as [| | | |v]; try done.
    by eapply rangeRgRoutes_no_panic in Hscan; [|apply built_compiled].
  - destruct (rangeDefaultIndex _ _ _) as [sel|] eqn:Hidx; [|done].
    apply rangeDefaultIndex_index in Hidx as [h ->]. done.
Qed.

(** X6. A request that no route serves gets no response from [handle]:
    with no exact entry for the path, no pattern route that accepts it and
    no default-index name whose joined path has an entry, [handle] returns
    having set the Server and Date headers and nothing else.  No status is
    sent, no body written, nothing logged, nothing called; the not-found
    reply is commented out in the source. *)
Theorem unmatched_request_gets_no_response (r : Routes) (req : Request)
    (date : string) (st : St) :
  mapRoutes r !! URLPath req = None ->
  compiled (rgRoutes r) ->
  (forall h, In h (rgRoutes r) -> forall caps, ~ full_match h (URLPath req) caps) ->
  (forall p, In p (defaultIndex r) -> mapRoutes r !! path_Join (URLPath req) p = None) ->
  let st' := with_server_headers date st in
  handle_select r req = SelNone /\
  handle r req date st = Done tt st' /\
  wstatus (ew (env st')) = wstatus (ew (env st)) /\
  wbody (ew (env st')) = wbody (ew (env st)) /\
  elogs (env st') = elogs (env st) /\
  calls st' = calls st /\
  Header_Get (wheader (ew (env st'))) "Server" = "xweb" /\
  Header_Get (wheader (ew (env st'))) "Date" = date.
Proof.
  intros Hmap Hc Hno Hidx st'.
  assert (handle_select r req = SelNone) as Hsel.
  { unfold handle_select.
    by rewrite Hmap, (rangeRgRoutes_none _ _ Hc Hno), (rangeDefaultIndex_none _ _ _ Hidx). }
  split; [done|]. split; [by rewrite handle_dispatch, Hsel|].
  repeat split; try done.
  - unfold st', with_server_headers, Header_Get, w_SetHeader, Header_Set. simpl.
    rewrite lookup_insert_ne by done. by rewrite lookup_insert_eq.
  - unfold st', with_server_headers, Header_Get, w_SetHeader, Header_Set. simpl.
    by rewrite lookup_insert_eq.
Qed.

Lemma literal_sources_cons (reg : registration) (regs : list registration) :
  literal_sources (reg :: regs) =
  if strings.ContainsAny (reg_source reg) "*?" then literal_sources regs
  else reg_source reg :: literal_sources regs.
Proof. unfold literal_sources. simpl. by destruct (strings.ContainsAny _ _). Qed.

(** X7. Start-up registration adds to the exact-match map the sources
    that have no wildcard character, and only those: after any list of
    [addAction] calls the keys of the map are the keys it had and the
    literal sources of the list, whether the calls succeeded or not; the
    application and the default-index names of the table are never
    changed. *)
Theorem registered_literal_keys (regs : list registration) (r : Routes) :
  dom (mapRoutes (registerAll r regs)) =@{gset string}
    dom (mapRoutes r) ∪ list_to_set (literal_sources regs) /\
  defaultIndex (registerAll r regs) = defaultIndex r /\
  r_app (registerAll r regs) = r_app r.
Proof.
  revert r. induction regs as [|reg regs IH]; intros r.
  - split; [|done]. unfold literal_sources. simpl. by rewrite (right_id_L ∅ (∪)).
  - specialize (IH (fst (addAction r (reg_source reg) (reg_methods reg) (reg_ctype reg)
                           (reg_action reg)))).
    change (registerAll r (reg :: regs)) with
      (registerAll (fst (addAction r (reg_source reg) (reg_methods reg) (reg_ctype reg)
                           (reg_action reg))) regs).
    destruct IH as (Hdom & Hidx & Happ). rewrite Hdom, Hidx, Happ, literal_sources_cons.
    unfold addAction. destruct (strings.ContainsAny _ _); simpl.
    + destruct (Compile _); simpl; done.
    + rewrite dom_insert_L. split; [|done]. simpl.
      by rewrite (comm_L (∪) {[_]} (dom _)), <- (assoc_L (∪)).
Qed.

End Coverage.

(** ** Further properties of route.go: the action life cycle *)

Section Lifecycle.

Context {L : RegexpLib} {X : Externals}.

Set Default Proof Using "Type".


(** A hook that panics is a method of the type, and the panic is its own;
    the call is in the trace. *)
Lemma callIfValid_panic (t : rtype U) (vc : U) (name : string) (args : list arg)
    (st st' : St) (v : string) :
  callIfValid t vc name args st = Panic v st' ->
  (exists m vc', MethodByName t name = Some m /\
                 m args vc (env st) = Panics v vc' (env st')) /\
  calls st' = calls st ++ [CallHook name args].
Proof.
  unfold callIfValid. destruct (MethodByName t name) as [m|]; [|done].
  destruct (m args vc (env st)) as [|v' vc' e'] eqn:Hm; [done|].
  intros [= <- <-]. split; [|done]. by exists m, vc'.
Qed.

Lemma rendered_calls (content : string) (st : St) : calls (rendered content st) = calls st.
Proof. unfold rendered. by destruct (w_Write _ _). Qed.

(** The fault branch of [DoCr_finish] (lines 147-151). *)
Lemma DoCr_finish_fault (h : actionHandler) (vc : U) (rets : list rvalue) (e : string)
    (st1 : St) :
  DoCr_finish h vc rets (Some e) st1 = Done tt (aborted 500 "Server Error" (logged e st1)).
Proof.
  unfold DoCr_finish, bind, GetLogger_Println, Log, onEnv, Abort, bind, WriteHeader, onW,
    onEnv, Write_, aborted, logged. simpl. by destruct (w_Write _ _).
Qed.

(** The other branch (lines 154-184): the After hook runs on the array
    [DoCr] holds, and the first value, as the hook left it, decides. *)
Lemma DoCr_finish_returned (h : actionHandler) (vc : U) (rets : list rvalue) (st1 : St) :
  DoCr_finish h vc rets None st1 =
  match callIfValid (ah_ctype h) vc "After"
          [AString (TypeString (ah_ctype h)); AString (ah_handler h); AValues rets]
          (holding rets st1) with
  | Panic v s => Panic v s
  | Done _ st2 =>
      match eret (env st2) with
      | [] => Done tt st2
      | VString str :: _ => Done tt (rendered str st2)
      | VBytes b :: _ => Done tt (rendered b st2)
      | VError e :: _ => Done tt (aborted 500 "Server Error" (logged e st2))
      | VOther :: _ => Done tt (rendered "" st2)
      | VRefused v :: _ => Panic v st2
      end
  end.
Proof.
  unfold DoCr_finish, bind, hold, onEnv. simpl. fold (holding rets st1).
  destruct (callIfValid _ _ _ _ _) as [vc' st2|]; [|done].
  unfold held. destruct (eret (env st2)) as [|[str|b|e| |v] ret_]; [done| | | | |done].
  - unfold Action_SetHeader, SetHeader, onW, onEnv, Write_, Log, onEnv, ret, rendered. simpl.
    by destruct (w_Write _ _) as [w2 [werr|]].
  - unfold Action_SetHeader, SetHeader, onW, onEnv, Write_, Log, onEnv, ret, rendered. simpl.
    by destruct (w_Write _ _) as [w2 [werr|]].
  - unfold bind, GetLogger_Println, Log, onEnv, Abort, bind, WriteHeader, onW,
      onEnv, Write_, aborted, logged. simpl. by destruct (w_Write _ _).
  - unfold Action_SetHeader, SetHeader, onW, onEnv, Write_, Log, onEnv, ret, rendered. simpl.
    by destruct (w_Write _ _) as [w2 [werr|]].
Qed.

(** Once the action has returned and the After hook is back, [DoCr] ends
    in the state the first value decides. *)
Lemma DoCr_returned (h : actionHandler) (req : Request) (match_ : list string)
    (st st1 st2 : St) (vc vc' : U) (rets : list rvalue) :
  xsrf_rejected (ah_app h) (parsed (ah_app h) req) = false ->
  DoCr_invoke h (parsed (ah_app h) req) match_ (with_CT st) = Done (vc, rets, None) st1 ->
  callIfValid (ah_ctype h) vc "After"
    [AString (TypeString (ah_ctype h)); AString (ah_handler h); AValues rets]
    (holding rets st1) = Done vc' st2 ->
  DoCr h req match_ st =
  match eret (env st2) with
  | [] => Done tt st2
  | VString str :: _ => Done tt (rendered str st2)
  | VBytes b :: _ => Done tt (rendered b st2)
  | VError e :: _ => Done tt (aborted 500 "Server Error" (logged e st2))
  | VOther :: _ => Done tt (rendered "" st2)
  | VRefused v :: _ => Panic v st2
  end.
Proof.
  intros Hadm Hinv Hafter. rewrite DoCr_admitted by done. unfold bind. rewrite Hinv.
  by rewrite DoCr_finish_returned, Hafter.
Qed.

(** What [DoCr_finish] adds to the trace: the After hook, on the branch
    that has it. *)
Lemma DoCr_finish_calls (h : actionHandler) (vc : U) (rets : list rvalue)
    (err : option string) (st1 st' : St) :
  DoCr_finish h vc rets err st1 = Done tt st' ->
  calls st' = calls st1 ++
    match err with
    | Some _ => []
    | None => hook_calls (ah_ctype h) "After"
                [AString (TypeString (ah_ctype h)); AString (ah_handler h); AValues rets]
    end.
Proof.
  destruct err as [e|].
  - rewrite DoCr_finish_fault. intros [= <-]. simpl. by rewrite app_nil_r.
  - rewrite DoCr_finish_returned.
    destruct (callIfValid _ _ _ _ _) as [vc' st2|] eqn:Hafter; [|done].
    apply callIfValid_calls in Hafter. simpl in Hafter.
    destruct (eret (env st2)) as [|[str|b|e| |v] ret_]; intros [= <-];
      by rewrite ?rendered_calls.
Qed.

(** X8. The CSRF cookie is looked at only when checking is enabled and
    the method is exactly POST: with checking off, or any other method,
    [DoCr] sets the content type and goes on to the life cycle, whatever
    cookies and form fields the request has. *)
Theorem xsrf_not_checked_unless_post (h : actionHandler) (req : Request)
    (match_ : list string) (st : St) :
  CheckXrsf (Config (ah_app h)) = false \/ Method req <> "POST" ->
  DoCr h req match_ st = DoCr_lifecycle h (parsed (ah_app h) req) match_ (with_CT st).
Proof.
  intros Hoff. unfold DoCr_lifecycle. apply DoCr_admitted.
  unfold xsrf_rejected. rewrite parsed_Method.
  destruct Hoff as [->|Hne]; [done|].
  apply String.eqb_neq in Hne. rewrite Hne. by rewrite andb_false_r.
Qed.


(** X10. An action that returns no value: once the After hook is back,
    [DoCr] returns and does nothing more.  The response, the log and the
    trace are as the hook left them; no Content-Length is set and no
    status is sent by [DoCr]. *)
Theorem empty_result_writes_nothing (h : actionHandler) (req : Request)
    (match_ : list string) (st st1 st2 : St) (vc vc' : U) :
  let a := ah_app h in
  let req' := parsed a req in
  let after := [AString (TypeString (ah_ctype h)); AString (ah_handler h); AValues []] in
  xsrf_rejected a req' = false ->
  DoCr_invoke h req' match_ (with_CT st) = Done (vc, [], None) st1 ->
  callIfValid (ah_ctype h) vc "After" after (holding [] st1) = Done vc' st2 ->
  eret (env st2) = [] ->
  DoCr h req match_ st = Done tt st2 /\
  calls st2 = calls st1 ++ hook_calls (ah_ctype h) "After" after.
Proof.
  intros a req' after Hadm Hinv Hafter Hkept.
  split; [|by apply callIfValid_calls in Hafter].
  rewrite (DoCr_returned _ _ _ _ _ _ _ _ _ Hadm Hinv Hafter). by rewrite Hkept.
Qed.



(** X13. The hooks run unguarded: a panic of the Init, the Before or the
    After hook is a panic of [DoCr], with the hook's value and in the
    state the hook left.  [DoCr] logs nothing and sends no status; when it
    is Init or Before that panics the action is not called, and when it is
    After the value the action returned is not rendered. *)
Theorem hook_panic_is_not_caught (h : actionHandler) (req : Request)
    (match_ : list string) (st : St) :
  let t := ah_ctype h in
  let req' := parsed (ah_app h) req in
  let sn := AString (TypeString t) in
  let an := AString (ah_handler h) in
  let s0 := constructed h (with_CT st) in
  xsrf_rejected (ah_app h) req' = false ->
  (forall v s, callIfValid t (bound h req') "Init" [] s0 = Panic v s ->
     DoCr h req match_ st = Panic v s /\
     calls s = calls st ++ [CallNew (TypeString t); CallHook "Init" []]) /\
  (forall vc1 s1 v s, callIfValid t (bound h req') "Init" [] s0 = Done vc1 s1 ->
     callIfValid t vc1 "Before" [sn; an] s1 = Panic v s ->
     DoCr h req match_ st = Panic v s /\
     calls s = calls st ++ CallNew (TypeString t) :: hook_calls t "Init" [] ++
                 [CallHook "Before" [sn; an]]) /\
  (forall vc rets st1 v s,
     DoCr_invoke h req' match_ (with_CT st) = Done (vc, rets, None) st1 ->
     callIfValid t vc "After" [sn; an; AValues rets] (holding rets st1) = Panic v s ->
     DoCr h req match_ st = Panic v s /\
     calls s = calls st1 ++ [CallHook "After" [sn; an; AValues rets]]).
Proof.
  intros t req' sn an s0 Hadm.
  assert (DoCr h req match_ st =
            (out <- (vc <- callIfValid t (bound h req') "Init" [] ;;
                     vc <- callIfValid t vc "Before" [sn; an] ;;
                     safelyCall t vc (ah_handler h) (map AString match_)) ;;
             let '(vc, rets, err) := out in DoCr_finish h vc rets err)%go s0) as Hrun.
  { by rewrite DoCr_admitted. }
  split; [|split].
  - intros v s Hinit. rewrite Hrun. unfold bind. rewrite Hinit. split; [done|].
    apply callIfValid_panic in Hinit as [_ ->]. unfold s0, constructed. simpl.
    by rewrite <- app_assoc.
  - intros vc1 s1 v s Hinit Hbefore. rewrite Hrun. unfold bind.
    rewrite Hinit, Hbefore. split; [done|].
    apply callIfValid_calls in Hinit. apply callIfValid_panic in Hbefore as [_ ->].
    rewrite Hinit. unfold s0, constructed. simpl.
    rewrite <- !app_assoc. simpl. by rewrite <- ?app_assoc.
  - intros vc rets st1 v s Hinv Hafter. rewrite DoCr_admitted by done. unfold bind.
    fold req'. rewrite Hinv, DoCr_finish_returned. fold t sn an. rewrite Hafter.
    split; [done|]. by apply callIfValid_panic in Hafter as [_ ->].
Qed.

(** X14. The reflective calls of one request, in order: the instance is
    constructed once, then Init and Before run if the type has them, each
    once, then the action is called under guard, once, with the captures
    as its arguments; the After hook follows if the type has it and the
    call reported no fault, with the returned values as its third
    argument, and nothing else is called. *)
Theorem lifecycle_call_order (h : actionHandler) (req : Request) (match_ : list string)
    (st st' : St) :
  let t := ah_ctype h in
  let sn := AString (TypeString t) in
  let an := AString (ah_handler h) in
  xsrf_rejected (ah_app h) (parsed (ah_app h) req) = false ->
  DoCr h req match_ st = Done tt st' ->
  exists vc rets err st1,
    DoCr_invoke h (parsed (ah_app h) req) match_ (with_CT st) = Done (vc, rets, err) st1 /\
    calls st' = calls st ++ CallNew (TypeString t) :: hook_calls t "Init" [] ++
      hook_calls t "Before" [sn; an] ++
      CallSafely (ah_handler h) (map AString match_) ::
      match err with
      | Some _ => []
      | None => hook_calls t "After" [sn; an; AValues rets]
      end.
Proof.
  intros t sn an Hadm Hrun. rewrite DoCr_admitted in Hrun by done. unfold bind in Hrun.
  destruct (DoCr_invoke _ _ _ _) as [[[vc rets] err] st1|v1 st1] eqn:Hinv; [|done].
  exists vc, rets, err, st1. split; [done|].
  apply DoCr_finish_calls in Hrun. apply DoCr_invoke_calls in Hinv.
  rewrite Hrun, Hinv. unfold sn, an, t. simpl.
  rewrite <- !app_assoc. simpl. by rewrite <- !app_assoc.
Qed.


End Lifecycle.

(** ** The router at work *)

Module Runs.

Import Demo.
#[local] Existing Instance MiniLib.
#[local] Existing Instance platform.

(** [/user/(\d+)] as a pattern route, and the path [/user/123/extra]: the
    match is the prefix [/user/123], and the route is not selected. *)
Example user_route_not_selected_for_longer_path :
  let h := pattern_route "/user/(\d+)" "Show" in
  (fun cr => FindStringSubmatch cr "/user/123/extra") <$> ah_cr h =
    Some ["/user/123"; "123"] /\
  select (with_rgRoutes [h] no_routes) (get "/user/123/extra") = SelNone /\
  select (with_rgRoutes [h] no_routes) (get "/user/123") = SelPattern h ["123"].
Proof. repeat split; reflexivity. Qed.

(** Registered through [addAction], the same source is a literal key. *)
Example user_route_is_registered_as_literal :
  select routes (get "/user/123") = SelNone /\
  select routes (get "/user/(\d+)") = SelExact (HAction (exact_route "Show")).
Proof. split; reflexivity. Qed.

(** A GET of [/hello]: status 200, body [ok], Content-Length 2, the hooks
    around the call. *)
Example hello_is_served :
  outcome (serve routes (get "/hello")) =
  Some (Some 200%Z, "ok", "2", [],
        [CallNew "main.Page";
         CallHook "Before" [AString "main.Page"; AString "Show"];
         CallSafely "Show" [];
         CallHook "After" [AString "main.Page"; AString "Show"; AValues [VString "ok"]]]).
Proof. reflexivity. Qed.

(** A GET of [/crash]: status 500, body [Server Error], one line logged,
    no After hook. *)
Example crash_is_reported :
  outcome (serve routes (get "/crash")) =
  Some (Some 500%Z, "Server Error", "", ["runtime error: index out of range"],
        [CallNew "main.Page";
         CallHook "Before" [AString "main.Page"; AString "Crash"];
         CallSafely "Crash" []]).
Proof. reflexivity. Qed.

(** A POST without the cookie: status 500, body [xrsf error.], nothing
    constructed and nothing called. *)
Example post_without_cookie_is_refused :
  outcome (serve routes (request "POST" "/hello" [] {["_xsrf" := ["t0k"]]})) =
  Some (Some 500%Z, "xrsf error.", "", [], []).
Proof. reflexivity. Qed.

(** An action that writes to the response itself and then returns a
    string: the returned bytes follow what it wrote, and Content-Length
    counts the returned bytes only. *)
Example stream_appends :
  outcome (serve routes (get "/stream")) =
  Some (Some 200%Z, "xok", "2", [],
        [CallNew "main.Page";
         CallHook "Before" [AString "main.Page"; AString "Stream"];
         CallSafely "Stream" [];
         CallHook "After" [AString "main.Page"; AString "Stream"; AValues [VString "ok"]]]).
Proof. reflexivity. Qed.

(** An After hook that overwrites the first returned value: [Show]
    returns "ok", and what is rendered is the hook's string. *)
Example after_hook_replaces_result :
  (exists vc st1,
     DoCr_invoke (action_of Stamped "Show") (parsed app (get "/stamped")) []
       (with_CT st0) = Done (vc, [VString "ok"], None) st1) /\
  outcome (DoCr (action_of Stamped "Show") (get "/stamped") [] st0) =
  Some (Some 200%Z, "stamped", "7", [],
        [CallNew "main.Stamped";
         CallSafely "Show" [];
         CallHook "After" [AString "main.Stamped"; AString "Show"; AValues [VString "ok"]]]).
Proof. split; [do 2 eexists; vm_compute|]; reflexivity. Qed.

(** An action that returns a byte slice of a named type: the assertion
    of line 172 fails, and [DoCr] panics once the After hook is back. *)
Example named_bytes_are_not_rendered :
  exists st,
    DoCr (action_of Kinds "Raw") (get "/raw") [] st0 =
      Panic "interface conversion: interface {} is main.Raw, not []uint8" st /\
    wstatus (ew (env st)) = None /\ wbody (ew (env st)) = "" /\
    calls st = [CallNew "main.Kinds"; CallSafely "Raw" [];
                CallHook "After"
                  [AString "main.Kinds"; AString "Raw";
                   AValues [VRefused "interface conversion: interface {} is main.Raw, not []uint8"]]].
Proof. eexists. split; [vm_compute; reflexivity|]. repeat split; reflexivity. Qed.

End Runs.

(** ** The properties on the fixtures *)

#[local] Existing Instance MiniLib.
#[local] Existing Instance Demo.platform.

(** [/files/a.txt] selects the first of the two routes under [/files/],
    whose match is the whole path. *)
Lemma pattern_route_is_anchored_witness :
  Demo.select Demo.routes (Demo.get "/files/a.txt") =
    SelPattern (Demo.pattern_route "/files/(.*)" "Show") ["a.txt"] /\
  In (Demo.pattern_route "/files/(.*)" "Show") (rgRoutes Demo.routes) /\
  full_match (Demo.pattern_route "/files/(.*)" "Show") "/files/a.txt" ["a.txt"].
Proof.
  pose proof (pattern_route_is_anchored Demo.routes (Demo.get "/files/a.txt")
                (Demo.pattern_route "/files/(.*)" "Show") ["a.txt"] eq_refl) as H.
  split; [reflexivity|]. split; apply H.
Defined.

(** [/hello] has an exact entry: it is selected even with a pattern list
    whose first entry has no compiled pattern and whose second accepts the
    path. *)
Lemma exact_entry_precedes_patterns_witness :
  mapRoutes Demo.routes !! "/hello" = Some (HAction (Demo.exact_route "Show")) /\
  Demo.select
    (with_rgRoutes [NewActionHandler Demo.app Demo.Page "Crash";
                    Demo.pattern_route "/h.*" "Crash"] Demo.routes)
    (Demo.get "/hello") = SelExact (HAction (Demo.exact_route "Show")).
Proof.
  pose proof (exact_entry_precedes_patterns Demo.routes (Demo.get "/hello") ""
                (HAction (Demo.exact_route "Show"))
                [NewActionHandler Demo.app Demo.Page "Crash";
                 Demo.pattern_route "/h.*" "Crash"] Demo.st0 eq_refl) as H.
  split; [reflexivity|apply H].
Defined.

(** [/files/a.txt] is accepted by the second and the third pattern route
    and has no exact entry: the second, registered first, is selected. *)
Lemma first_registered_pattern_wins_witness :
  full_match (Demo.pattern_route "/files/(.*)" "Show") "/files/a.txt" ["a.txt"] /\
  full_match (Demo.pattern_route "/files/a.*" "Crash") "/files/a.txt" [] /\
  rgRoutes Demo.routes =
    [Demo.pattern_route "/img/(.*)" "Crash"; Demo.pattern_route "/files/(.*)" "Show";
     Demo.pattern_route "/files/a.*" "Crash"] /\
  Demo.select Demo.routes (Demo.get "/files/a.txt") =
    SelPattern (Demo.pattern_route "/files/(.*)" "Show") ["a.txt"].
Proof.
  assert (full_match (Demo.pattern_route "/files/(.*)" "Show") "/files/a.txt" ["a.txt"])
    as Hfirst by (eexists; split; reflexivity).
  assert (full_match (Demo.pattern_route "/files/a.*" "Crash") "/files/a.txt" [])
    as Hsecond by (eexists; split; reflexivity).
  destruct (first_registered_pattern_wins (NewRoutes Demo.app ["index.htm"; "index.html"])
              [Demo.reg "/hello" "Show"; Demo.reg "/crash" "Crash";
               Demo.reg "/stream" "Stream"; Demo.reg "/partial" "Partial";
               Demo.reg "/img/(.*)" "Crash";
               Demo.reg "/files/(.*)" "Show"; Demo.reg "/files/a.*" "Crash";
               Demo.reg "/docs/index.html" "Show"; Demo.reg "/user/(\d+)" "Show"]
              (Demo.get "/files/a.txt")
              [Demo.pattern_route "/img/(.*)" "Crash"]
              [Demo.pattern_route "/files/a.*" "Crash"]
              (Demo.pattern_route "/files/(.*)" "Show") ["a.txt"] ""
              Demo.st0) as (Horder & _ & Hsel).
  - constructor.
  - reflexivity.
  - intros h' [<-|[]] caps' (cr & Hcr & Hfind).
    injection Hcr as <-. vm_compute in Hfind. discriminate Hfind.
  - exact Hfirst.
  - split; [exact Hfirst|]. split; [exact Hsecond|]. split; [exact Horder|].
    apply Hsel. reflexivity.
Defined.

(** [/docs] has no entry and no pattern accepts it; [index.htm] is not
    there, [index.html] is. *)
Lemma default_index_first_hit_witness :
  Demo.select Demo.routes (Demo.get "/docs") =
    SelIndex (HAction (Demo.exact_route "Show")) /\
  GoPath.Join "/docs" "index.html" = "/docs/index.html".
Proof.
  split; [|reflexivity].
  destruct (default_index_first_hit Demo.routes (Demo.get "/docs") ["index.htm"] [] "index.html"
              (HAction (Demo.exact_route "Show")) "" Demo.st0) as (Hsel & _).
  - reflexivity.
  - apply registerAll_compiled. constructor.
  - intros h' Hin caps (cr & Hcr & Hfind).
    change (In h' [Demo.pattern_route "/img/(.*)" "Crash";
                   Demo.pattern_route "/files/(.*)" "Show";
                   Demo.pattern_route "/files/a.*" "Crash"]) in Hin.
    destruct Hin as [<-|[<-|[<-|[]]]]; injection Hcr as <-;
      vm_compute in Hfind; discriminate Hfind.
  - reflexivity.
  - intros p [<-|[]]. reflexivity.
  - reflexivity.
  - exact Hsel.
Defined.

(** A GET and a DELETE of [/hello] select the same handler, and so do
    they when every route allows POST only. *)
Lemma selection_ignores_method_witness :
  Demo.select Demo.routes (Demo.get "/hello") =
    Demo.select Demo.routes (Demo.request "DELETE" "/hello" [] ∅) /\
  Demo.select (r_retag (fun _ => {["POST" := true]}) Demo.routes) (Demo.get "/hello") =
    sel_retag (fun _ => {["POST" := true]})
      (Demo.select Demo.routes (Demo.request "DELETE" "/hello" [] ∅)).
Proof.
  pose proof (selection_ignores_method Demo.routes (Demo.get "/hello")
                (Demo.request "DELETE" "/hello" [] ∅) (fun _ => {["POST" := true]}) ""
                Demo.st0 eq_refl) as H.
  split; apply H.
Defined.

(** POST requests with no cookie, an empty one, a wrong one and the
    right one. *)
Lemma xsrf_check_witness :
  let h := Demo.exact_route "Show" in
  let run req := DoCr h req [] Demo.st0 in
  let token := {["_xsrf" := ["t0k"]]} in
  let refused := aborted 500 "xrsf error." (with_CT Demo.st0) in
  run (Demo.request "POST" "/hello" [] token) = Done tt refused /\
  run (Demo.request "POST" "/hello" [mkCookie "_xsrf" ""] token) = Done tt refused /\
  run (Demo.request "POST" "/hello" [mkCookie "_xsrf" "other"] token) = Done tt refused /\
  wstatus (ew (env refused)) = Some 500%Z /\
  wbody (ew (env refused)) = "xrsf error." /\
  calls refused = [] /\
  run (Demo.request "POST" "/hello" [mkCookie "_xsrf" "t0k"] token) =
    run (Demo.request "GET" "/hello" [] token).
Proof.
  intros h run token refused.
  pose proof (fun cookies =>
    xsrf_check h
      (Demo.request "POST" "/hello" cookies token) [] Demo.st0 eq_refl eq_refl) as H.
  destruct (proj1 (H [])) as (Hmissing & Hcalls & _ & Hfresh); [by left|].
  destruct Hfresh as [Hstatus Hbody]; [by repeat split|].
  destruct (proj1 (H [mkCookie "_xsrf" ""])) as (Hempty & _).
  { right. exists (mkCookie "_xsrf" ""). split; [reflexivity|by left]. }
  destruct (proj1 (H [mkCookie "_xsrf" "other"])) as (Hdiffers & _).
  { right. exists (mkCookie "_xsrf" "other"). split; [reflexivity|]. right. discriminate. }
  pose proof (proj2 (H [mkCookie "_xsrf" "t0k"]) (mkCookie "_xsrf" "t0k") eq_refl) as Hequal.
  split; [exact Hmissing|]. split; [exact Hempty|]. split; [exact Hdiffers|].
  split; [exact Hstatus|]. split; [exact Hbody|]. split; [exact Hcalls|].
  unfold run. rewrite Hequal; [reflexivity|discriminate|reflexivity].
Defined.



(** A group that opens with a repetition: there is nothing to repeat. *)
Lemma invalid_wildcard_source_is_refused_witness :
  addAction Demo.routes "/files/(*" ∅ Demo.Page "Show" =
    (Demo.routes, Some "error parsing regexp: missing argument to repetition operator: `*`") /\
  Demo.select (fst (addAction Demo.routes "/files/(*" ∅ Demo.Page "Show"))
    (Demo.get "/files/(") = Demo.select Demo.routes (Demo.get "/files/(").
Proof.
  exact (invalid_wildcard_source_is_refused Demo.routes "/files/(*" ∅
           Demo.Page "Show" "error parsing regexp: missing argument to repetition operator: `*`"
           (Demo.get "/files/(") eq_refl eq_refl).
Defined.

(** C6 as the specification has it fails on a source without [*] and [?]:
    [/user/(\d+] does not compile (its group is not closed), yet
    registering it returns no error and adds an exact entry under that
    very key, which a request for that path then reaches. *)
Lemma invalid_source_without_wildcard_is_stored :
  let r := Demo.no_routes in
  let r' := fst (addAction r "/user/(\d+" ∅ Demo.Page "Show") in
  let h := {| ah_app := Demo.app; ah_methods := ∅; ah_cr := None;
              ah_ctype := Demo.Page; ah_handler := "Show" |} in
  Compile "/user/(\d+" = inr "error parsing regexp: missing closing ): `/user/(\d+`" /\
  snd (addAction r "/user/(\d+" ∅ Demo.Page "Show") = None /\
  mapRoutes r !! "/user/(\d+" = None /\
  mapRoutes r' !! "/user/(\d+" = Some (HAction h) /\
  Demo.select r (Demo.get "/user/(\d+") = SelNone /\
  Demo.select r' (Demo.get "/user/(\d+") = SelExact (HAction h).
Proof. repeat split; reflexivity. Qed.

(** C7 as stated fails on a source with a [*] that does not compile:
    [*.html] contains [*], and no pattern route is stored for it. *)
Lemma wildcard_source_may_not_be_stored :
  let r := Demo.no_routes in
  strings.ContainsAny "*.html" "*?" = true /\
  addAction r "*.html" ∅ Demo.Page "Show" =
    (r, Some "error parsing regexp: missing argument to repetition operator: `*`") /\
  rgRoutes (fst (addAction r "*.html" ∅ Demo.Page "Show")) = [].
Proof. repeat split; reflexivity. Qed.


(** C5 as stated fails on a path that also has an exact entry:
    [/files/a.txt] is accepted by two pattern routes, and once it is
    registered as a literal route too, the router dispatches the literal
    one and neither pattern route. *)
Lemma exact_entry_beats_first_pattern :
  let r := fst (addAction Demo.routes "/files/a.txt" ∅ Demo.Page "Crash") in
  let first := Demo.pattern_route "/files/(.*)" "Show" in
  let second := Demo.pattern_route "/files/a.*" "Crash" in
  full_match first "/files/a.txt" ["a.txt"] /\
  full_match second "/files/a.txt" [] /\
  rgRoutes r = [Demo.pattern_route "/img/(.*)" "Crash"; first; second] /\
  Demo.select r (Demo.get "/files/a.txt") =
    SelExact (HAction {| ah_app := Demo.app; ah_methods := ∅; ah_cr := None;
                         ah_ctype := Demo.Page; ah_handler := "Crash" |}).
Proof.
  split; [eexists; split; reflexivity|]. split; [eexists; split; reflexivity|].
  split; reflexivity.
Qed.


(** ** The further properties on the fixtures *)

(** [/user/(\d+)] has neither [*] nor [?]: it is a literal key. *)
Lemma literal_route_is_reachable_witness :
  snd (addAction Demo.no_routes "/user/(\d+)" ∅ Demo.Page "Show") = None /\
  Demo.select (fst (addAction Demo.no_routes "/user/(\d+)" ∅ Demo.Page "Show"))
    (Demo.get "/user/(\d+)") = SelExact (HAction (Demo.action_of Demo.Page "Show")).
Proof.
  destruct (literal_route_is_reachable Demo.no_routes "/user/(\d+)" ∅ Demo.Page "Show"
              (Demo.get "/user/(\d+)") "" Demo.st0 eq_refl eq_refl)
    as (Herr & _ & Hsel & _).
  split; [exact Herr|exact Hsel].
Defined.

(** A static handler under a key with a [*] in it. *)
Lemma static_route_is_reachable_witness :
  Demo.select (fst (addStatic Demo.routes "/*.css" (HStatic {| sh_app := Demo.app |})))
    (Demo.get "/*.css") = SelExact (HStatic {| sh_app := Demo.app |}) /\
  rgRoutes (fst (addStatic Demo.routes "/*.css" (HStatic {| sh_app := Demo.app |}))) =
    rgRoutes Demo.routes.
Proof.
  destruct (static_route_is_reachable Demo.routes "/*.css" (HStatic {| sh_app := Demo.app |})
              (Demo.get "/*.css") "" Demo.st0 eq_refl)
    as (_ & Hrg & _ & Hsel & _).
  split; [exact Hsel|exact Hrg].
Defined.

(** [/hello] registered as a static route, then as an action. *)
Lemma later_registration_replaces_earlier_witness :
  fst (addAction (fst (addStatic Demo.no_routes "/hello" (HStatic {| sh_app := Demo.app |})))
         "/hello" ∅ Demo.Page "Show") =
  fst (addAction Demo.no_routes "/hello" ∅ Demo.Page "Show") /\
  fst (addAction (fst (addAction Demo.no_routes "/hello" ∅ Demo.Audited "Show"))
         "/hello" ∅ Demo.Page "Show") =
  fst (addAction Demo.no_routes "/hello" ∅ Demo.Page "Show").
Proof.
  destruct (later_registration_replaces_earlier Demo.no_routes "/hello"
              (HStatic {| sh_app := Demo.app |}) ∅ ∅ Demo.Audited Demo.Page "Show" "Show"
              eq_refl) as (Hstatic & Haction & _).
  split; [exact Hstatic|exact Haction].
Defined.

(** A catch-all pattern registered last does not take [/files/a.txt]
    from the route that serves it. *)
Lemma registration_preserves_earlier_routes_witness :
  Demo.select (fst (addAction Demo.routes "/(.*)" ∅ Demo.Page "Crash"))
    (Demo.get "/files/a.txt") =
  SelPattern (Demo.pattern_route "/files/(.*)" "Show") ["a.txt"].
Proof.
  destruct (registration_preserves_earlier_routes Demo.routes "/(.*)" ∅ Demo.Page "Crash"
              (Demo.get "/files/a.txt")
              (SelPattern (Demo.pattern_route "/files/(.*)" "Show") ["a.txt"]) eq_refl)
    as [Hadd _].
  - right. by do 2 eexists.
  - apply Hadd. left. reflexivity.
Defined.

(** The table of the fixtures is a built one. *)
Lemma routing_never_panics_witness :
  sel_panics (Demo.select Demo.routes (Demo.get "/files/a.txt")) = false /\
  sel_panics (Demo.select (with_rgRoutes [Demo.exact_route "Show"] Demo.routes)
                (Demo.get "/files/a.txt")) = true.
Proof.
  split; [|reflexivity].
  apply (routing_never_panics Demo.routes (Demo.get "/files/a.txt")).
  apply registerAll_built. constructor.
Defined.

(** Nothing serves [/nowhere]. *)
Lemma unmatched_request_gets_no_response_witness :
  Demo.outcome (Demo.serve Demo.routes (Demo.get "/nowhere")) = Some (None, "", "", [], []).
Proof.
  destruct (unmatched_request_gets_no_response Demo.routes (Demo.get "/nowhere")
              "Sun, 01 Nov 2026 00:00:00 GMT" Demo.st0) as (_ & Hrun & _).
  - reflexivity.
  - apply registerAll_compiled. constructor.
  - intros h' Hin caps (cr & Hcr & Hfind).
    change (In h' [Demo.pattern_route "/img/(.*)" "Crash";
                   Demo.pattern_route "/files/(.*)" "Show";
                   Demo.pattern_route "/files/a.*" "Crash"]) in Hin.
    destruct Hin as [<-|[<-|[<-|[]]]]; injection Hcr as <-;
      vm_compute in Hfind; discriminate Hfind.
  - intros p [<-|[<-|[]]]; reflexivity.
  - unfold Demo.serve. rewrite Hrun. reflexivity.
Defined.

(** A PUT with a cookie that differs from the form field is served. *)
Lemma xsrf_not_checked_unless_post_witness :
  Demo.outcome
    (DoCr (Demo.exact_route "Show")
       (Demo.request "PUT" "/hello" [mkCookie "_xsrf" "other"] {["_xsrf" := ["t0k"]]})
       [] Demo.st0) =
  Some (Some 200%Z, "ok", "2", [],
        [CallNew "main.Page";
         CallHook "Before" [AString "main.Page"; AString "Show"];
         CallSafely "Show" [];
         CallHook "After" [AString "main.Page"; AString "Show"; AValues [VString "ok"]]]).
Proof.
  rewrite (xsrf_not_checked_unless_post (Demo.exact_route "Show")
             (Demo.request "PUT" "/hello" [mkCookie "_xsrf" "other"] {["_xsrf" := ["t0k"]]})
             [] Demo.st0).
  - reflexivity.
  - right. discriminate.
Defined.


(** [Nothing] returns no value. *)
Lemma empty_result_writes_nothing_witness :
  Demo.outcome (DoCr (Demo.action_of Demo.Kinds "Nothing") (Demo.get "/nothing") []
                  Demo.st0) =
  Some (None, "", "", [],
        [CallNew "main.Kinds"; CallSafely "Nothing" [];
         CallHook "After" [AString "main.Kinds"; AString "Nothing"; AValues []]]).
Proof.
  pose (calls1 := [CallNew "main.Kinds"; CallSafely "Nothing" []]).
  pose (after := CallHook "After" [AString "main.Kinds"; AString "Nothing"; AValues []]).
  destruct (empty_result_writes_nothing (Demo.action_of Demo.Kinds "Nothing")
              (Demo.get "/nothing") [] Demo.st0
              {| env := env (with_CT Demo.st0); calls := calls1 |}
              {| env := env (holding [] (with_CT Demo.st0)); calls := calls1 ++ [after] |}
              ["Nothing"] ["Nothing"; "After"]
              eq_refl eq_refl eq_refl eq_refl)
    as (Hrun & _).
  rewrite Hrun. reflexivity.
Defined.



(** The Before hook of [Guarded] panics: the action is not called. *)
Lemma hook_panic_is_not_caught_witness :
  exists st',
    DoCr (Demo.action_of Demo.Guarded "Show") (Demo.get "/guarded") [] Demo.st0 =
      Panic "not logged in" st' /\
    calls st' = [CallNew "main.Guarded";
                 CallHook "Before" [AString "main.Guarded"; AString "Show"]] /\
    wstatus (ew (env st')) = None /\
    elogs (env st') = [].
Proof.
  pose (st' := {| env := env (with_CT Demo.st0);
                  calls := [CallNew "main.Guarded";
                            CallHook "Before" [AString "main.Guarded"; AString "Show"]] |}).
  destruct (hook_panic_is_not_caught (Demo.action_of Demo.Guarded "Show")
              (Demo.get "/guarded") [] Demo.st0 eq_refl) as (_ & Hbefore & _).
  destruct (Hbefore [] (constructed (Demo.action_of Demo.Guarded "Show") (with_CT Demo.st0))
              "not logged in" st' eq_refl eq_refl) as [Hrun Hcalls].
  exists st'. split; [exact Hrun|]. split; [exact Hcalls|]. split; reflexivity.
Defined.

(** The calls of a GET of [/hello]. *)
Lemma lifecycle_call_order_witness :
  exists st',
    DoCr (Demo.exact_route "Show") (Demo.get "/hello") [] Demo.st0 = Done tt st' /\
    calls st' = [CallNew "main.Page";
                 CallHook "Before" [AString "main.Page"; AString "Show"];
                 CallSafely "Show" [];
                 CallHook "After" [AString "main.Page"; AString "Show";
                                   AValues [VString "ok"]]].
Proof.
  pose (st' := rendered "ok"
                 {| env := env (holding [VString "ok"] (with_CT Demo.st0));
                    calls := [CallNew "main.Page";
                              CallHook "Before" [AString "main.Page"; AString "Show"];
                              CallSafely "Show" [];
                              CallHook "After" [AString "main.Page"; AString "Show";
                                                AValues [VString "ok"]]] |}).
  exists st'. split; [reflexivity|].
  destruct (lifecycle_call_order (Demo.exact_route "Show") (Demo.get "/hello") []
              Demo.st0 st' eq_refl eq_refl)
    as (vc & rets & err & st1 & Hinv & Hcalls).
  injection Hinv as _ <- <- _. exact Hcalls.
Defined.

